(** * Calendar voice bot: the action executor and the transcription choice

    A shallow embedding of the server of the calendar voice bot
    (the file with [loadEvents], [saveEvents], [generateId],
    [executeAction] and the [/api/voice] handler), and the properties of
    its specification that concern the event store, the three calendar
    actions and the choice between the English and the Hindi transcript.

    JavaScript values are modelled as follows.
    - A string is a Rocq [string], that is the sequence of the bytes of
      its UTF-8 form.  [includes] on well-formed UTF-8 agrees with
      [String.prototype.includes] on the UTF-16 form.
    - A property that may be missing is an [option]: [None] is the
      missing property, which reads as [undefined].  Where a property is
      present it holds a string.
    - A number that is an integer (a clock reading, a length) is an [N] or
      a [Z]; a confidence score is an IEEE 754 binary64 [float].
    - An [async] function is a computation on the [World]: the calendar
      file, the clock and the random number generator.  It either returns
      or throws.

    The intents are those of the response format that the system prompt
    lays down: an object with [action], [language], [data] and
    [response], the properties of [data] strings or missing.  A reply of
    the language model that parses to another shape (no [data], a
    [query] that is [null] or a number) is outside the model, and so is a
    write to the calendar file that fails: on these [executeAction] can
    throw as well, and no property below speaks of them.

    Left out as well: what [console.log] prints; the calls to the language
    model and to the speech services, whose answers are inputs here. *)

From Stdlib Require Import String Ascii List Bool NArith ZArith Lia Floats.
Import ListNotations.

Local Open Scope string_scope.
Local Open Scope list_scope.

(* ===================================================================== *)
(** ** Strings as the server uses them *)
(* ===================================================================== *)

Module JsString.

(** [c.toLowerCase()] for a character [c] of Basic Latin: the letters
    [A]..[Z] move to [a]..[z], every other character stays. *)
Definition lower_ascii (c : ascii) : ascii :=
  let n := nat_of_ascii c in
  if ((65 <=? n) && (n <=? 90))%nat then ascii_of_nat (n + 32) else c.

(** Lower-casing of the letters of Basic Latin, byte by byte. *)
Fixpoint lower_basic_latin (s : string) : string :=
  match s with
  | EmptyString => EmptyString
  | String c s' => String (lower_ascii c) (lower_basic_latin s')
  end.

(** The string has characters of Basic Latin (ASCII) only: every byte is
    below 128. *)
Fixpoint is_basic_latin (s : string) : bool :=
  match s with
  | EmptyString => true
  | String c s' => (nat_of_ascii c <? 128)%nat && is_basic_latin s'
  end.

(** [String.prototype.toLowerCase], as an interface.  The function of the
    platform lower-cases every cased letter of Unicode and looks at the
    context of a letter (the final sigma); its tables are not part of the
    repository.  What is laid down here is what it does to a text of
    Basic Latin, where it moves [A]..[Z] to [a]..[z] and nothing else.
    Every property below that is stated for a [LowerCase] holds for the
    function of the platform. *)
Class LowerCase := {
  toLowerCase : string -> string;
  toLowerCase_basic_latin :
    forall s, is_basic_latin s = true -> toLowerCase s = lower_basic_latin s
}.

(** The lower-casing that leaves every byte outside Basic Latin as it is.
    It serves to run the functions on sample data, which are in Basic
    Latin, where it is the function of the platform. *)
#[export] Instance basic_latin_only : LowerCase :=
  {| toLowerCase := lower_basic_latin;
     toLowerCase_basic_latin := fun _ _ => eq_refl |}.

(** [s.startsWith(q)] *)
Fixpoint startsWith (s q : string) {struct q} : bool :=
  match q, s with
  | EmptyString, _ => true
  | String _ _, EmptyString => false
  | String a q', String b s' => Ascii.eqb a b && startsWith s' q'
  end.

(** [s.includes(q)]: [q] occurs in [s] at some position. *)
Fixpoint includes (s q : string) : bool :=
  startsWith s q ||
  match s with
  | EmptyString => false
  | String _ s' => includes s' q
  end.

(** The declarative reading of [includes]: [q] is a substring of [s]. *)
Definition Substring (q s : string) : Prop :=
  exists pre suf : string, s = (pre ++ q ++ suf)%string.

(** A case-insensitive substring: a substring once both are in lower
    case. *)
Definition SubstringCI {lc : LowerCase} (q s : string) : Prop :=
  Substring (toLowerCase q) (toLowerCase s).

(** [field && f(field)], read for its truth value, where [field] is a
    string or is missing: [undefined] and [''] are falsy, so [f] is only
    consulted on a nonempty string. *)
Definition and_then (field : option string) (f : string -> bool) : bool :=
  match field with
  | None => false
  | Some EmptyString => false
  | Some s => f s
  end.

End JsString.
Import JsString.

(* ===================================================================== *)
(** ** Numbers to text: [toString(36)] and [toISOString()] *)
(* ===================================================================== *)

Module JsNumber.

Local Open Scope N_scope.

(** The digit characters [0]..[9], [a]..[z]. *)
Definition digit36 (d : N) : ascii :=
  if d <? 10 then ascii_of_N (48 + d) else ascii_of_N (87 + d).

(** The base-36 digits of [n], least significant first; [fuel] bounds
    the number of digits. *)
Fixpoint digits36 (fuel : nat) (n : N) : list N :=
  match fuel with
  | O => []
  | S fuel' =>
      (n mod 36) :: (if n / 36 =? 0 then [] else digits36 fuel' (n / 36))
  end.

(** [n.toString(36)] for a nonnegative integer [n]. *)
Definition toString36 (n : N) : string :=
  string_of_list_ascii
    (map digit36 (rev (digits36 (S (N.to_nat (N.log2 n))) n))).

(** [width] decimal digits of [n], zero padded. *)
Fixpoint fixed_dec (width : nat) (n : N) : string :=
  match width with
  | O => EmptyString
  | S w => (fixed_dec w (n / 10) ++ String (ascii_of_N (48 + n mod 10)) EmptyString)%string
  end.

(** Year, month and day of the [z]-th day after 1970-01-01 in the
    proleptic Gregorian calendar. *)
Definition civil_from_days (z : N) : N * N * N :=
  let z := z + 719468 in
  let era := z / 146097 in
  let doe := z - era * 146097 in
  let yoe := (doe - doe / 1460 + doe / 36524 - doe / 146096) / 365 in
  let doy := doe - (365 * yoe + yoe / 4 - yoe / 100) in
  let mp := (5 * doy + 2) / 153 in
  let d := doy - (153 * mp + 2) / 5 + 1 in
  let m := if mp <? 10 then mp + 3 else mp - 9 in
  let y := yoe + era * 400 + (if m <=? 2 then 1 else 0) in
  (y, m, d).

(** [new Date(ms).toISOString()] for a time [ms] in milliseconds since
    the epoch: [YYYY-MM-DDTHH:mm:ss.sssZ], with the expanded year
    [+YYYYYY] after the year 9999. *)
Definition toISOString (ms : N) : string :=
  let '(y, m, d) := civil_from_days (ms / 86400000) in
  let r := ms mod 86400000 in
  ((if (y <=? 9999)%N then fixed_dec 4 y else "+" ++ fixed_dec 6 y)
     ++ "-" ++ fixed_dec 2 m ++ "-" ++ fixed_dec 2 d
     ++ "T" ++ fixed_dec 2 (r / 3600000)
     ++ ":" ++ fixed_dec 2 (r / 60000 mod 60)
     ++ ":" ++ fixed_dec 2 (r / 1000 mod 60)
     ++ "." ++ fixed_dec 3 (r mod 1000) ++ "Z")%string.

(** The number a list of base-36 digits denotes, least significant
    first. *)
Fixpoint value36 (ds : list N) : N :=
  match ds with
  | [] => 0
  | d :: ds' => d + 36 * value36 ds'
  end.

(** The digit a digit character stands for. *)
Definition digit_value (c : ascii) : N :=
  let n := N_of_ascii c in
  if n <? 58 then n - 48 else n - 87.

End JsNumber.
Import JsNumber.

(* ===================================================================== *)
(** ** The data model *)
(* ===================================================================== *)

(** A calendar event, as [executeAction] builds it and as the calendar
    file holds it.  [title], [date] and [time] come from the intent and
    may be missing. *)
Record Event := {
  ev_id : string;
  ev_title : option string;
  ev_date : option string;
  ev_time : option string;
  ev_language : string;
  ev_createdAt : string
}.

(** [intent.data]: [{title, date, time}] for an addition, [{query}] for a
    deletion, [{}] for a listing.  [None] is a property the object does
    not have. *)
Record IntentData := {
  title : option string;
  date : option string;
  time : option string;
  query : option string
}.

(** The intent the language model returns, in the response format of the
    system prompt: the four properties are there, and [data] is an
    object. *)
Record Intent := {
  action : string;
  language : string;
  data : IntentData;
  response : string
}.

(** What [executeAction] returns: [{ events, message }]. *)
Record ActionResult := {
  events : list Event;
  message : string
}.

(** The text of the calendar file, up to [JSON.parse]: either a text that
    [JSON.parse] rejects, or the JSON text of an array of events, kept as
    the array it denotes.  [JSON.stringify(events, null, 2)] writes the
    latter.  A text that parses to anything else than an array of event
    objects is outside this model. *)
Inductive FileText :=
| Malformed (text : string)
| ArrayText (content : list Event).

(** The world an [async] function runs in.
    - [calendar_file]: the content of [calendar.json], [None] while the
      file does not exist;
    - [written]: the texts [fs.writeFile] was called with, latest first;
    - [clock], [clock_reads]: the clock, as the sequence of the readings it
      will give (milliseconds since the epoch) and the number of readings
      taken so far;
    - [random], [random_draws]: the same for [Math.random()], each draw
      given by the digits after [0.] of its base-36 expansion, which is
      what [generateId] keeps of it. *)
Record World := {
  calendar_file : option FileText;
  written : list FileText;
  clock : nat -> N;
  clock_reads : nat;
  random : nat -> string;
  random_draws : nat
}.

(* ===================================================================== *)
(** ** Computations that return or throw *)
(* ===================================================================== *)

Inductive Exn :=
| ENOENT
| SyntaxError
| TypeError (msg : string)
| Error (msg : string).

Inductive Completion (A : Type) :=
| Returns (a : A)
| Throws (e : Exn).
Arguments Returns {A} a.
Arguments Throws {A} e.

Definition Async (A : Type) : Type := World -> Completion A * World.

Definition ret {A} (a : A) : Async A := fun w => (Returns a, w).

Definition throw {A} (e : Exn) : Async A := fun w => (Throws e, w).

Definition bind {A B} (m : Async A) (k : A -> Async B) : Async B :=
  fun w =>
    match m w with
    | (Returns a, w') => k a w'
    | (Throws e, w') => (Throws e, w')
    end.

(** [try { m } catch (error) { handler(error) }] *)
Definition try_catch {A} (m : Async A) (handler : Exn -> Async A) : Async A :=
  fun w =>
    match m w with
    | (Returns a, w') => (Returns a, w')
    | (Throws e, w') => handler e w'
    end.

Declare Scope async_scope.
Delimit Scope async_scope with async.
Notation "x <- m ;; k" := (bind m (fun x => k))
  (at level 61, m at next level, right associativity) : async_scope.
Notation "m ;; k" := (bind m (fun _ => k))
  (at level 61, right associativity) : async_scope.
Local Open Scope async_scope.

(* ===================================================================== *)
(** ** The platform: file system, JSON, clock, random numbers *)
(* ===================================================================== *)

(** [fs.readFile(CALENDAR_FILE, 'utf8')] *)
Definition fs_readFile : Async FileText :=
  fun w =>
    match calendar_file w with
    | Some text => (Returns text, w)
    | None => (Throws ENOENT, w)
    end.

(** [fs.writeFile(CALENDAR_FILE, text)], on a file system that takes the
    write. *)
Definition fs_writeFile (text : FileText) : Async unit :=
  fun w =>
    (Returns tt,
     {| calendar_file := Some text;
        written := text :: written w;
        clock := clock w; clock_reads := clock_reads w;
        random := random w; random_draws := random_draws w |}).

(** [JSON.parse(data)] *)
Definition JSON_parse (data : FileText) : Async (list Event) :=
  match data with
  | Malformed _ => throw SyntaxError
  | ArrayText content => ret content
  end.

(** [JSON.stringify(events, null, 2)] *)
Definition JSON_stringify (events : list Event) : FileText :=
  ArrayText events.

(** The reading the clock gives next. *)
Definition now (w : World) : N := clock w (clock_reads w).

(** The draw [Math.random()] gives next. *)
Definition draw (w : World) : string := random w (random_draws w).

(** [Date.now()], and the time value of [new Date()] *)
Definition Date_now : Async N :=
  fun w =>
    (Returns (now w),
     {| calendar_file := calendar_file w; written := written w;
        clock := clock w; clock_reads := S (clock_reads w);
        random := random w; random_draws := random_draws w |}).

(** [Math.random().toString(36).substr(2)] *)
Definition Math_random_toString36_substr2 : Async string :=
  fun w =>
    (Returns (draw w),
     {| calendar_file := calendar_file w; written := written w;
        clock := clock w; clock_reads := clock_reads w;
        random := random w; random_draws := S (random_draws w) |}).

(* ===================================================================== *)
(** ** The event store *)
(* ===================================================================== *)

(** [loadEvents]: the parsed calendar file; on any exception, the empty
    array. *)
Definition loadEvents : Async (list Event) :=
  try_catch
    (data <- fs_readFile ;;
     JSON_parse data)
    (fun error => ret []).

(** [saveEvents] *)
Definition saveEvents (events : list Event) : Async unit :=
  fs_writeFile (JSON_stringify events).

(** [generateId] *)
Definition generateId : Async string :=
  t <- Date_now ;;
  r <- Math_random_toString36_substr2 ;;
  ret (toString36 t ++ r)%string.

(* ===================================================================== *)
(** ** The action executor *)
(* ===================================================================== *)

(** The message of a deletion that found nothing, in Hindi, as the
    literal stands in the source file. *)
Definition NOT_FOUND_HI : string :=
  "рдореБрдЭреЗ рд╡рд╣ рдЗрд╡реЗрдВрдЯ рдирд╣реАрдВ рдорд┐рд▓рд╛ред".

(** The same in English. *)
Definition NOT_FOUND_EN : string := "I couldn't find that event.".

(** The test of the deletion filter: does [event] match [query]?
    [matchTime || matchTitle || matchDate] of the source. *)
Definition matches {lc : LowerCase} (query : string) (event : Event) : bool :=
  let matchTime := and_then (ev_time event) (fun t => includes t query) in
  let matchTitle :=
    and_then (ev_title event) (fun t => includes (toLowerCase t) query) in
  let matchDate := and_then (ev_date event) (fun d => includes d query) in
  matchTime || matchTitle || matchDate.

(** [intent.data.query.toLowerCase()]: a [TypeError] when [data] has no
    [query] property, the message that of Node.js for a property read on
    [undefined]. *)
Definition query_toLowerCase {lc : LowerCase} (intent : Intent) : Async string :=
  match query (data intent) with
  | Some q => ret (toLowerCase q)
  | None => throw (TypeError "Cannot read properties of undefined (reading 'toLowerCase')")
  end.

(** [executeAction] *)
Definition executeAction {lc : LowerCase} (intent : Intent) : Async ActionResult :=
  events <- loadEvents ;;
  let updatedEvents := events in
  let resultMessage := response intent in
  if action intent =? "ADD_EVENT" then
    id <- generateId ;;
    created <- Date_now ;;
    let newEvent :=
      {| ev_id := id;
         ev_title := title (data intent);
         ev_date := date (data intent);
         ev_time := time (data intent);
         ev_language := language intent;
         ev_createdAt := toISOString created |} in
    let updatedEvents := updatedEvents ++ [newEvent] in
    saveEvents updatedEvents ;;
    ret {| events := updatedEvents; message := resultMessage |}
  else if action intent =? "LIST_EVENTS" then
    ret {| events := updatedEvents; message := resultMessage |}
  else if action intent =? "DELETE_EVENT" then
    query <- query_toLowerCase intent ;;
    let beforeCount := Z.of_nat (length updatedEvents) in
    let updatedEvents :=
      filter (fun event => negb (matches query event)) updatedEvents in
    let deletedCount := (beforeCount - Z.of_nat (length updatedEvents))%Z in
    saveEvents updatedEvents ;;
    let resultMessage :=
      if (deletedCount =? 0)%Z
      then (if language intent =? "hi" then NOT_FOUND_HI else NOT_FOUND_EN)
      else resultMessage in
    ret {| events := updatedEvents; message := resultMessage |}
  else
    ret {| events := updatedEvents; message := resultMessage |}.

(* ===================================================================== *)
(** ** The transcription stage of [POST /api/voice] *)
(* ===================================================================== *)

(** What a recognition request answers, as far as the handler reads it:
    [result.results.channels[0].alternatives[0]] with its [transcript]
    and [confidence]; every level may be missing. *)
Record Alternative := {
  transcript : option string;
  confidence : option float
}.

Record Channel := {
  alternatives : option (list Alternative)
}.

Record Results := {
  channels : option (list Channel)
}.

Record Recognition := {
  results : option Results
}.

(** [{ result, error }] of [deepgram.listen.prerecorded.transcribeFile]. *)
Record Attempt := {
  result : option Recognition;
  error : option string
}.

(** What the stage hands on: the text and the language tag. *)
Record Transcription := {
  transcribedText : string;
  detectedLanguage : string
}.

(** [o?.f] *)
Definition chain {A B} (o : option A) (f : A -> option B) : option B :=
  match o with
  | Some a => f a
  | None => None
  end.

(** [r?.results?.channels?.[0]?.alternatives?.[0]] *)
Definition first_alternative (r : option Recognition) : option Alternative :=
  chain (chain (chain (chain (chain r results) channels)
                 (fun cs => nth_error cs 0)) alternatives)
    (fun alts => nth_error alts 0).

(** [s || ''] *)
Definition or_empty (s : option string) : string :=
  match s with
  | Some s => s
  | None => EmptyString
  end.

(** [c || 0]: zero, negative zero, [NaN] and a missing value all give [0]. *)
Definition or_zero (c : option float) : float :=
  match c with
  | Some c => if (PrimFloat.is_zero c || PrimFloat.is_nan c)%bool then 0%float else c
  | None => 0%float
  end.

Definition BOTH_FAILED : string :=
  "Deepgram transcription failed for both languages".

(** The handler from the two answers to the selected text and language:
    the exception when both attempts report an error, else the defaults
    and the comparison [hiConfidence > enConfidence]. *)
Definition transcribe (en hi : Attempt) : Completion Transcription :=
  match error en, error hi with
  | Some _, Some _ => Throws (Error BOTH_FAILED)
  | _, _ =>
      let enText := or_empty (chain (first_alternative (result en)) transcript) in
      let hiText := or_empty (chain (first_alternative (result hi)) transcript) in
      let enConfidence := or_zero (chain (first_alternative (result en)) confidence) in
      let hiConfidence := or_zero (chain (first_alternative (result hi)) confidence) in
      Returns
        {| transcribedText :=
             if PrimFloat.ltb enConfidence hiConfidence then hiText else enText;
           detectedLanguage :=
             if PrimFloat.ltb enConfidence hiConfidence then "hi" else "en" |}
  end.

(* ===================================================================== *)
(** ** The language model, the speech service and the locale *)
(* ===================================================================== *)

(** The text of the first content block of the language model's reply, up
    to [JSON.parse]: a text that [JSON.parse] rejects, or the JSON text of
    an intent, kept as the intent it denotes. *)
Inductive ReplyText :=
| NotJson (text : string)
| IntentJson (intent : Intent).

(** What [getCurrentDate] returns. *)
Record CurrentDate := {
  cd_date : string;
  cd_time : string;
  cd_dayOfWeek : string;
  cd_fullDate : string
}.

(** The system prompt, as the values that fill the holes of its template,
    in the order of the holes: the full date, the day of the week, the
    date of tomorrow, the date of today, and the date of tomorrow in the
    English and in the Hindi example. *)
Record SystemPrompt := {
  sp_fullDate : string;
  sp_dayOfWeek : string;
  sp_tomorrow : string;
  sp_today : string;
  sp_tomorrow_example_en : string;
  sp_tomorrow_example_hi : string
}.

(** What the server takes from outside, as functions of what it passes:
    - the renderings of a time value in the local time zone and the
      [en-US] locale;
    - [anthropic.messages.create]: the content blocks of the reply, or an
      exception;
    - [deepgram.listen.prerecorded.transcribeFile] for an audio buffer and
      a language;
    - [deepgram.speak.request] followed by reading the stream: the
      chunks of the stream, [None] for no stream, or an exception. *)
Record Services := {
  toTimeString : N -> string;
  toLocaleDateString_weekday : N -> string;
  toLocaleDateString_long : N -> string;
  messages_create : SystemPrompt -> string -> Completion (list ReplyText);
  transcribeFile : string -> string -> Attempt;
  speak_request : string -> Completion (option (list string))
}.

(** A computation that has its completion already. *)
Definition settle {A} (c : Completion A) : Async A := fun w => (c, w).

(** [s.split(c)[0]]: the part of [s] before the first [c]. *)
Fixpoint before (c : ascii) (s : string) : string :=
  match s with
  | EmptyString => EmptyString
  | String a s' => if Ascii.eqb a c then EmptyString else String a (before c s')
  end.

(** The alphabet of base 64. *)
Definition base64_char (n : N) : ascii :=
  if (n <? 26)%N then ascii_of_N (65 + n)
  else if (n <? 52)%N then ascii_of_N (71 + n)
  else if (n <? 62)%N then ascii_of_N (n - 4)
  else if (n =? 62)%N then "+"%char
  else "/"%char.

(** [buffer.toString('base64')] *)
Fixpoint base64 (bytes : string) : string :=
  match bytes with
  | EmptyString => EmptyString
  | String a EmptyString =>
      let x := N_of_ascii a in
      String (base64_char (x / 4))
        (String (base64_char (x mod 4 * 16)) "==")
  | String a (String b EmptyString) =>
      let x := N_of_ascii a in
      let y := N_of_ascii b in
      String (base64_char (x / 4))
        (String (base64_char (x mod 4 * 16 + y / 16))
           (String (base64_char (y mod 16 * 4)) "="))
  | String a (String b (String c rest)) =>
      let x := N_of_ascii a in
      let y := N_of_ascii b in
      let z := N_of_ascii c in
      String (base64_char (x / 4))
        (String (base64_char (x mod 4 * 16 + y / 16))
           (String (base64_char (y mod 16 * 4 + z / 64))
              (String (base64_char (z mod 64)) (base64 rest))))
  end%N.

(* ===================================================================== *)
(** ** Resolving the intent and synthesizing the reply *)
(* ===================================================================== *)

(** [getCurrentDate] *)
Definition getCurrentDate (svc : Services) : Async CurrentDate :=
  t <- Date_now ;;
  ret {| cd_date := before "T" (toISOString t);
         cd_time := substring 0 5 (before " " (toTimeString svc t));
         cd_dayOfWeek := toLocaleDateString_weekday svc t;
         cd_fullDate := toLocaleDateString_long svc t |}.

(** [new Date(Date.now() + 86400000).toISOString().split('T')[0]] *)
Definition tomorrow : Async string :=
  t <- Date_now ;;
  ret (before "T" (toISOString (t + 86400000))).

(** [getSystemPrompt] *)
Definition getSystemPrompt (svc : Services) : Async SystemPrompt :=
  currentDate <- getCurrentDate svc ;;
  t1 <- tomorrow ;;
  t2 <- tomorrow ;;
  t3 <- tomorrow ;;
  ret {| sp_fullDate := cd_fullDate currentDate;
         sp_dayOfWeek := cd_dayOfWeek currentDate;
         sp_tomorrow := t1;
         sp_today := cd_date currentDate;
         sp_tomorrow_example_en := t2;
         sp_tomorrow_example_hi := t3 |}.

(** [processIntent] *)
Definition processIntent (svc : Services) (transcription : string) : Async Intent :=
  try_catch
    (system <- getSystemPrompt svc ;;
     content <- settle (messages_create svc system transcription) ;;
     responseText <-
       match content with
       | block :: _ => ret block
       | [] => throw (TypeError "Cannot read properties of undefined (reading 'text')")
       end ;;
     match responseText with
     | IntentJson result => ret result
     | NotJson _ => throw SyntaxError
     end)
    (fun error => throw error).

Definition NO_AUDIO_STREAM : string := "No audio stream returned from Deepgram".

(** [generateSpeech] *)
Definition generateSpeech (svc : Services) (text language : string) : Async string :=
  try_catch
    (stream <- settle (speak_request svc text) ;;
     match stream with
     | None => throw (Error NO_AUDIO_STREAM)
     | Some chunks => ret (base64 (String.concat EmptyString chunks))
     end)
    (fun error => throw error).

(* ===================================================================== *)
(** ** The endpoints *)
(* ===================================================================== *)

(** The body of a response: [{ error, details }] with the exception whose
    message [details] carries, the answer to a voice or text request, or
    [{ events }]. *)
Inductive ResponseBody :=
| Failure (summary : string) (details : option Exn)
| Answer (transcription reply audio : string) (calendar : list Event)
    (intent : Intent)
| EventList (calendar : list Event).

Record HttpResponse := {
  status : nat;
  payload : ResponseBody
}.

(** [POST /api/voice], for the uploaded file [req.file.buffer] if any. *)
Definition post_api_voice {lc : LowerCase} (svc : Services) (file : option string) : Async HttpResponse :=
  try_catch
    (match file with
     | None => ret {| status := 400; payload := Failure "No audio file provided" None |}
     | Some buffer =>
         let en := transcribeFile svc buffer "en" in
         let hi := transcribeFile svc buffer "hi" in
         selected <- settle (transcribe en hi) ;;
         intent <- processIntent svc (transcribedText selected) ;;
         actionResult <- executeAction intent ;;
         audioBase64 <- generateSpeech svc (message actionResult) (language intent) ;;
         ret {| status := 200;
                payload := Answer (transcribedText selected) (message actionResult)
                             audioBase64 (events actionResult) intent |}
     end)
    (fun error =>
       ret {| status := 500;
              payload := Failure "Failed to process voice input" (Some error) |}).

(** [POST /api/text], for [req.body.text] if any. *)
Definition post_api_text {lc : LowerCase} (svc : Services) (text : option string) : Async HttpResponse :=
  try_catch
    (match text with
     | None | Some EmptyString =>
         ret {| status := 400; payload := Failure "No text provided" None |}
     | Some text =>
         intent <- processIntent svc text ;;
         actionResult <- executeAction intent ;;
         audioBase64 <- generateSpeech svc (message actionResult) (language intent) ;;
         ret {| status := 200;
                payload := Answer text (message actionResult) audioBase64
                             (events actionResult) intent |}
     end)
    (fun error =>
       ret {| status := 500;
              payload := Failure "Failed to process text input" (Some error) |}).

(** [GET /api/events] *)
Definition get_api_events : Async HttpResponse :=
  try_catch
    (events <- loadEvents ;;
     ret {| status := 200; payload := EventList events |})
    (fun error =>
       ret {| status := 500;
              payload := Failure "Failed to load events" (Some error) |}).

(* ===================================================================== *)
(** ** The browser's copy of the calendar *)
(* ===================================================================== *)

(** The page, as far as the calendar functions of the client script use
    it.
    - [storage_item]: what [localStorage] holds under
      [EVENTS_STORAGE_KEY], up to [JSON.parse], [None] for [null];
    - [storage_full]: [localStorage.setItem] throws (the quota is
      exceeded);
    - [displayed]: the collections [displayEvents] was called with, latest
      first, each as it was before [displayEvents] sorted it;
    - the clock and the random numbers of the browser, as in [World]. *)
Record Browser := {
  storage_item : option FileText;
  storage_full : bool;
  displayed : list (list Event);
  tab_clock : nat -> N;
  tab_clock_reads : nat;
  tab_random : nat -> string;
  tab_random_draws : nat
}.

Module App.

(** [getEventsFromStorage]: a missing or empty item gives the empty array
    without parsing, a text that is not JSON gives it through the
    [catch]. *)
Definition getEventsFromStorage (b : Browser) : list Event :=
  match storage_item b with
  | None => []
  | Some (Malformed EmptyString) => []
  | Some (Malformed _) => []
  | Some (ArrayText content) => content
  end.

(** [saveEventsToStorage]: an exception of [setItem] is caught and
    logged. *)
Definition saveEventsToStorage (events : list Event) (b : Browser) : Browser :=
  if storage_full b then b
  else
    {| storage_item := Some (JSON_stringify events);
       storage_full := storage_full b;
       displayed := displayed b;
       tab_clock := tab_clock b; tab_clock_reads := tab_clock_reads b;
       tab_random := tab_random b; tab_random_draws := tab_random_draws b |}.

(** [addEventToStorage] *)
Definition addEventToStorage (event : Event) (b : Browser) : list Event * Browser :=
  let events := getEventsFromStorage b in
  let events := events ++ [event] in
  (events, saveEventsToStorage events b).

(** [deleteEventFromStorage] *)
Definition deleteEventFromStorage (eventId : string) (b : Browser)
  : list Event * Browser :=
  let events := getEventsFromStorage b in
  let filteredEvents := filter (fun e => negb (ev_id e =? eventId)) events in
  (filteredEvents, saveEventsToStorage filteredEvents b).

(** [displayEvents], as the collection it is given to render. *)
Definition displayEvents (events : list Event) (b : Browser) : Browser :=
  {| storage_item := storage_item b;
     storage_full := storage_full b;
     displayed := events :: displayed b;
     tab_clock := tab_clock b; tab_clock_reads := tab_clock_reads b;
     tab_random := tab_random b; tab_random_draws := tab_random_draws b |}.

(** [loadEvents] of the client script *)
Definition loadEvents (b : Browser) : Browser :=
  displayEvents (getEventsFromStorage b) b.

(** [Date.now()] and [new Date()] in the browser *)
Definition Date_now (b : Browser) : N * Browser :=
  (tab_clock b (tab_clock_reads b),
   {| storage_item := storage_item b;
      storage_full := storage_full b;
      displayed := displayed b;
      tab_clock := tab_clock b; tab_clock_reads := S (tab_clock_reads b);
      tab_random := tab_random b; tab_random_draws := tab_random_draws b |}).

(** [Math.random().toString(36).substr(2)] in the browser *)
Definition Math_random_toString36_substr2 (b : Browser) : string * Browser :=
  (tab_random b (tab_random_draws b),
   {| storage_item := storage_item b;
      storage_full := storage_full b;
      displayed := displayed b;
      tab_clock := tab_clock b; tab_clock_reads := tab_clock_reads b;
      tab_random := tab_random b; tab_random_draws := S (tab_random_draws b) |}).

(** [handleCalendarAction].  The guards [intent.data.title] and
    [intent.data.query] let a nonempty string through. *)
Definition handleCalendarAction {lc : LowerCase} (intent : Intent) (b : Browser) : Browser :=
  let events := getEventsFromStorage b in
  if action intent =? "ADD_EVENT" then
    match title (data intent) with
    | Some (String _ _) =>
        let (t, b) := Date_now b in
        let (r, b) := Math_random_toString36_substr2 b in
        let (created, b) := Date_now b in
        let newEvent :=
          {| ev_id := (toString36 t ++ r)%string;
             ev_title := title (data intent);
             ev_date := date (data intent);
             ev_time := time (data intent);
             ev_language := language intent;
             ev_createdAt := toISOString created |} in
        let (events, b) := addEventToStorage newEvent b in
        displayEvents events b
    | _ => displayEvents events b
    end
  else if action intent =? "DELETE_EVENT" then
    match query (data intent) with
    | Some (String c q) =>
        let query := toLowerCase (String c q) in
        let filteredEvents :=
          filter (fun event => negb (matches query event)) events in
        let b := saveEventsToStorage filteredEvents b in
        displayEvents filteredEvents b
    | _ => displayEvents events b
    end
  else displayEvents events b.

(** [handleDeleteEvent], for the answer to the confirmation dialog. *)
Definition handleDeleteEvent (confirmed : bool) (eventId : string) (b : Browser)
  : Browser :=
  if confirmed then
    let (events, b) := deleteEventFromStorage eventId b in
    displayEvents events b
  else b.

(** A voice of the speech synthesis of the browser. *)
Record Voice := {
  voice_name : string;
  voice_lang : string
}.

(** A [SpeechSynthesisUtterance] as [speakWithWebAPI] sets it up; no
    voice stands for the default voice. *)
Record Utterance := {
  utt_text : string;
  utt_lang : string;
  utt_rate : float;
  utt_pitch : float;
  utt_volume : float;
  utt_voice : option Voice
}.

(** The speech synthesis of the browser: whether [window] has it, the
    voices it lists, and the utterances waiting to be spoken. *)
Record Speech := {
  supported : bool;
  voices : list Voice;
  queue : list Utterance
}.

(** The voices the listener of [initializeVoices] counts as Hindi. *)
Definition hindiVoices (voices : list Voice) : list Voice :=
  filter (fun voice => startsWith (voice_lang voice) "hi") voices.

(** [speechSynthesis.cancel()] *)
Definition cancel (s : Speech) : Speech :=
  {| supported := supported s; voices := voices s; queue := [] |}.

(** [speechSynthesis.speak(utterance)] *)
Definition speak (utterance : Utterance) (s : Speech) : Speech :=
  {| supported := supported s; voices := voices s;
     queue := queue s ++ [utterance] |}.

(** [speakWithWebAPI]: cancel what is being spoken, then speak the text
    with the first voice whose language starts with [hi] or [hi-IN]. *)
Definition speakWithWebAPI (text language : string) (s : Speech) : Speech :=
  if negb (supported s) then s
  else
    let s := cancel s in
    let hindiVoice :=
      find (fun voice => startsWith (voice_lang voice) "hi"
                         || startsWith (voice_lang voice) "hi-IN")
        (voices s) in
    let utterance :=
      {| utt_text := text;
         utt_lang := language;
         utt_rate := 0x1.ccccccccccccdp-1%float;
         utt_pitch := 1%float;
         utt_volume := 1%float;
         utt_voice := hindiVoice |} in
    speak utterance s.

End App.

(* ===================================================================== *)
(** ** Declarative readings used by the properties *)
(* ===================================================================== *)

(** The collection the calendar file holds for [loadEvents]: the array in
    the file, and the empty array when there is no file or no array in
    it. *)
Definition stored (w : World) : list Event :=
  match calendar_file w with
  | Some (ArrayText content) => content
  | _ => []
  end.

(** A field takes part in deletion matching when it is present and not
    empty, and [q] is a substring of its normal form. *)
Definition FieldHas (field : option string) (norm : string -> string)
    (q : string) : Prop :=
  exists s, field = Some s /\ s <> EmptyString /\ Substring q (norm s).

(** The deletion rule of the code, declaratively, for a query [q] already
    in lower case: [q] is a substring of the time as stored, of the title
    in lower case, or of the date as stored. *)
Definition Matches {lc : LowerCase} (q : string) (e : Event) : Prop :=
  FieldHas (ev_time e) (fun s => s) q \/
  FieldHas (ev_title e) toLowerCase q \/
  FieldHas (ev_date e) (fun s => s) q.

(** The deletion rule in the words of the specification: the query is a
    case-insensitive substring of the time, or a case-insensitive substring
    of the title, or (in lower case) a substring of the date. *)
Definition SpecMatches {lc : LowerCase} (query : string) (e : Event) : Prop :=
  (exists t, ev_time e = Some t /\ SubstringCI query t) \/
  (exists t, ev_title e = Some t /\ SubstringCI query t) \/
  (exists d, ev_date e = Some d /\ Substring (toLowerCase query) d).

(** A decimal digit. *)
Definition is_digit (c : ascii) : bool :=
  let n := nat_of_ascii c in
  ((48 <=? n) && (n <=? 57))%nat.

(** The time format of the data model: [HH:MM]. *)
Definition is_HHMM (t : string) : bool :=
  match t with
  | String h1 (String h2 (String c (String m1 (String m2 EmptyString)))) =>
      is_digit h1 && is_digit h2 && Ascii.eqb c ":" && is_digit m1 && is_digit m2
  | _ => false
  end.

(** The event has a time, in the format of the data model. *)
Definition HasTime (e : Event) : Prop :=
  exists t, ev_time e = Some t /\ is_HHMM t = true.

(** An event has a nonempty field among time, title and date. *)
Definition HasNonemptyField (e : Event) : Prop :=
  (exists s, ev_time e = Some s /\ s <> EmptyString) \/
  (exists s, ev_title e = Some s /\ s <> EmptyString) \/
  (exists s, ev_date e = Some s /\ s <> EmptyString).

(* ===================================================================== *)
(** ** Sample data *)
(* ===================================================================== *)

Definition standup : Event :=
  {| ev_id := "loyw3v28k2x9";
     ev_title := Some "Team Standup";
     ev_date := Some "2023-11-15";
     ev_time := Some "09:30";
     ev_language := "en";
     ev_createdAt := "2023-11-14T22:13:20.000Z" |}.

Definition review : Event :=
  {| ev_id := "loyw3v3b7qd1";
     ev_title := Some "Quarterly REVIEW";
     ev_date := Some "2023-11-15";
     ev_time := Some "15:00";
     ev_language := "en";
     ev_createdAt := "2023-11-14T22:13:22.000Z" |}.

Definition lunch : Event :=
  {| ev_id := "loyw3v9c01ab";
     ev_title := Some "Lunch";
     ev_date := Some "2023-11-16";
     ev_time := Some "3 PM";
     ev_language := "en";
     ev_createdAt := "2023-11-14T22:13:21.000Z" |}.

(** A world whose calendar file holds [content], whose clock advances by
    one millisecond per reading and whose random draws all differ. *)
Definition world_with (content : list Event) : World :=
  {| calendar_file := Some (ArrayText content);
     written := [];
     clock := fun n => (1700000000000 + N.of_nat n)%N;
     clock_reads := 0;
     random := fun n => toString36 (46656 + N.of_nat n);
     random_draws := 0 |}.

(** A world without calendar file in which the clock gives the same
    millisecond at every reading and [Math.random()] gives [0.5] at every
    draw: [(0.5).toString(36)] is [0.i], of which [substr(2)] keeps
    [i]. *)
Definition stuck_world : World :=
  {| calendar_file := None;
     written := [];
     clock := fun _ => 1700000000000%N;
     clock_reads := 0;
     random := fun _ => "i";
     random_draws := 0 |}.

(** A world whose calendar file is not JSON. *)
Definition corrupt_world : World :=
  {| calendar_file := Some (Malformed "[{ id: ");
     written := [];
     clock := fun n => (1700000000000 + N.of_nat n)%N;
     clock_reads := 0;
     random := fun n => toString36 (46656 + N.of_nat n);
     random_draws := 0 |}.

Definition add_intent (ti da tm lang resp : string) : Intent :=
  {| action := "ADD_EVENT";
     language := lang;
     data := {| title := Some ti; date := Some da; time := Some tm; query := None |};
     response := resp |}.

Definition delete_intent (q lang resp : string) : Intent :=
  {| action := "DELETE_EVENT";
     language := lang;
     data := {| title := None; date := None; time := None; query := Some q |};
     response := resp |}.

Definition list_intent (lang resp : string) : Intent :=
  {| action := "LIST_EVENTS";
     language := lang;
     data := {| title := None; date := None; time := None; query := None |};
     response := resp |}.

(** An attempt that succeeded with the transcript [t] at confidence [c]. *)
Definition heard (t : string) (c : float) : Attempt :=
  {| result :=
       Some {| results :=
                 Some {| channels :=
                           Some [{| alternatives :=
                                      Some [{| transcript := Some t;
                                               confidence := Some c |}] |}] |} |};
     error := None |}.

(** An attempt that failed: an error and no result. *)
Definition failed (msg : string) : Attempt :=
  {| result := None; error := Some msg |}.

(* ===================================================================== *)
(** ** Declarative readings and sample data for the endpoints and the
       browser *)
(* ===================================================================== *)

(** The world after [n] more clock readings. *)
Definition after_readings (n : nat) (w : World) : World :=
  {| calendar_file := calendar_file w; written := written w;
     clock := clock w; clock_reads := n + clock_reads w;
     random := random w; random_draws := random_draws w |}.

(** The character [c] does not occur in [s]. *)
Fixpoint lacks (c : ascii) (s : string) : bool :=
  match s with
  | EmptyString => true
  | String a s' => negb (Ascii.eqb a c) && lacks c s'
  end.

(** The date part [YYYY-MM-DD] of the ISO form of a time. *)
Definition utc_date (ms : N) : string :=
  let '(y, m, d) := civil_from_days (ms / 86400000) in
  ((if (y <=? 9999)%N then fixed_dec 4 y else "+" ++ fixed_dec 6 y)
     ++ "-" ++ fixed_dec 2 m ++ "-" ++ fixed_dec 2 d)%string.

(** The system prompt [getSystemPrompt] builds in the world [w]. *)
Definition prompt_in (svc : Services) (w : World) : SystemPrompt :=
  let r := clock w in
  let i := clock_reads w in
  {| sp_fullDate := toLocaleDateString_long svc (r i);
     sp_dayOfWeek := toLocaleDateString_weekday svc (r i);
     sp_tomorrow := utc_date (r (1 + i)%nat + 86400000);
     sp_today := utc_date (r i);
     sp_tomorrow_example_en := utc_date (r (2 + i)%nat + 86400000);
     sp_tomorrow_example_hi := utc_date (r (3 + i)%nat + 86400000) |}.

(** The intent [processIntent] makes of the language model's reply. *)
Definition reply_intent (reply : Completion (list ReplyText)) : Completion Intent :=
  match reply with
  | Throws e => Throws e
  | Returns [] =>
      Throws (TypeError "Cannot read properties of undefined (reading 'text')")
  | Returns (NotJson _ :: _) => Throws SyntaxError
  | Returns (IntentJson intent :: _) => Returns intent
  end.

(** The audio [generateSpeech] makes of the speech service's answer. *)
Definition speech_audio (answer : Completion (option (list string))) : Completion string :=
  match answer with
  | Throws e => Throws e
  | Returns None => Throws (Error NO_AUDIO_STREAM)
  | Returns (Some chunks) => Returns (base64 (String.concat EmptyString chunks))
  end.

(** A response of the text endpoint, with the summary of the voice
    endpoint when it is a failure of the pipeline. *)
Definition as_voice_response (r : HttpResponse) : HttpResponse :=
  match payload r with
  | Failure _ (Some e) =>
      {| status := status r;
         payload := Failure "Failed to process voice input" (Some e) |}
  | _ => r
  end.

(** Services that answer every request alike: the model with [reply], the
    recognition with [en] and [hi], the synthesis with [speech]. *)
Definition fixed_services (reply : Completion (list ReplyText)) (en hi : Attempt)
    (speech : Completion (option (list string))) : Services :=
  {| toTimeString := fun _ => "22:13:20 GMT+0000 (Coordinated Universal Time)";
     toLocaleDateString_weekday := fun _ => "Tuesday";
     toLocaleDateString_long := fun _ => "November 14, 2023";
     messages_create := fun _ _ => reply;
     transcribeFile := fun _ lang => if lang =? "hi" then hi else en;
     speak_request := fun _ => speech |}.

(** A page whose storage holds [content]. *)
Definition page_with (content : list Event) (full : bool) : Browser :=
  {| storage_item := Some (ArrayText content);
     storage_full := full;
     displayed := [];
     tab_clock := fun n => (1700000000500 + N.of_nat n)%N;
     tab_clock_reads := 0;
     tab_random := fun n => toString36 (46656 + N.of_nat n);
     tab_random_draws := 0 |}.

(** The number a text of base-36 digits denotes: [parseInt(s, 36)] on
    digit characters. *)
Definition decode36 (s : string) : N :=
  value36 (rev (map digit_value (list_ascii_of_string s))).

(** A field that no deletion query can match: missing or empty. *)
Definition blank (field : option string) : Prop :=
  field = None \/ field = Some EmptyString.

(** The world after the intents were executed one after the other. *)
Fixpoint run {lc : LowerCase} (intents : list Intent) (w : World) : World :=
  match intents with
  | [] => w
  | intent :: rest => run rest (snd (executeAction intent w))
  end.

(** Every stored event has an id that begins with a clock reading already
    taken. *)
Definition ids_from_clock (w : World) : Prop :=
  forall e, In e (stored w) ->
    exists i r, (i < clock_reads w)%nat /\
                ev_id e = (toString36 (clock w i) ++ r)%string.

(* ===================================================================== *)
(** ** Facts about strings *)
(* ===================================================================== *)

Section StringFacts.

Lemma startsWith_spec (s q : string) :
  startsWith s q = true <-> exists suf, s = (q ++ suf)%string.
Proof.
  revert s. induction q as [|a q IH]; intros s; simpl.
  - split; [intros _; now exists s | intros _; reflexivity].
  - destruct s as [|b s].
    + split; [discriminate | intros [suf H]; discriminate H].
    + rewrite andb_true_iff, Ascii.eqb_eq, IH. split.
      * intros [-> [suf ->]]. now exists suf.
      * intros [suf H]. injection H as -> ->. split; [reflexivity | now exists suf].
Qed.

Lemma includes_spec (s q : string) :
  includes s q = true <-> Substring q s.
Proof.
  unfold Substring. induction s as [|c s IH]; simpl.
  - rewrite orb_false_r, startsWith_spec. split.
    + intros [suf H]. now exists EmptyString, suf.
    + intros [pre [suf H]]. destruct pre; [now exists suf | discriminate H].
  - rewrite orb_true_iff, startsWith_spec, IH. split.
    + intros [[suf H] | [pre [suf H]]].
      * now exists EmptyString, suf.
      * exists (String c pre), suf. simpl. now rewrite H.
    + intros [pre [suf H]]. destruct pre as [|c' pre]; simpl in H.
      * left. now exists suf.
      * right. injection H as _ H. now exists pre, suf.
Qed.

Lemma includes_empty (s : string) : includes s EmptyString = true.
Proof. destruct s; reflexivity. Qed.

Lemma toLowerCase_empty {lc : LowerCase} : toLowerCase EmptyString = EmptyString.
Proof. exact (toLowerCase_basic_latin EmptyString eq_refl). Qed.

Lemma and_then_spec (field : option string) (f : string -> bool) :
  and_then field f = true <->
  exists s, field = Some s /\ s <> EmptyString /\ f s = true.
Proof.
  destruct field as [[|c s]|]; simpl.
  - split; [discriminate | intros [s [[= <-] [H _]]]; now elim H].
  - split.
    + intros H. exists (String c s). repeat split; [discriminate | exact H].
    + intros [s' [[= <-] [_ H]]]. exact H.
  - split; [discriminate | intros [s [H _]]; discriminate H].
Qed.

Lemma matches_spec {lc : LowerCase} (q : string) (e : Event) :
  matches q e = true <-> Matches q e.
Proof.
  unfold matches, Matches, FieldHas.
  rewrite !orb_true_iff, !and_then_spec.
  setoid_rewrite includes_spec. tauto.
Qed.

Lemma matches_false_spec {lc : LowerCase} (q : string) (e : Event) :
  matches q e = false <-> ~ Matches q e.
Proof.
  rewrite <- matches_spec. destruct (matches q e); split; congruence.
Qed.

End StringFacts.

Example toLowerCase_mixed {lc : LowerCase} :
  toLowerCase "Cancel My 3 PM Meeting" = "cancel my 3 pm meeting".
Proof. exact (toLowerCase_basic_latin "Cancel My 3 PM Meeting" eq_refl). Qed.

Example includes_time : includes "15:00" "15" = true.
Proof. reflexivity. Qed.

Example includes_is_case_sensitive : includes "3 PM" "pm" = false.
Proof. reflexivity. Qed.

Example and_then_empty_field : and_then (Some EmptyString) (fun s => includes s EmptyString) = false.
Proof. reflexivity. Qed.

(* ===================================================================== *)
(** ** Facts about the event store *)
(* ===================================================================== *)

Lemma loadEvents_returns (w : World) :
  loadEvents w = (Returns (stored w), w).
Proof.
  unfold loadEvents, try_catch, bind, fs_readFile, stored.
  destruct (calendar_file w) as [[text|content]|]; reflexivity.
Qed.

Lemma saveEvents_writes (es : list Event) (w : World) :
  exists w',
    saveEvents es w = (Returns tt, w') /\
    calendar_file w' = Some (ArrayText es) /\
    written w' = ArrayText es :: written w.
Proof. eexists. repeat split. Qed.

(** Unfolds [executeAction] up to the dispatch on the action. *)
Ltac enter_executeAction :=
  unfold executeAction, bind; rewrite loadEvents_returns.

(* ===================================================================== *)
(** ** Listing and unknown actions: nothing is written *)
(* ===================================================================== *)

(** C4. A LIST_EVENTS intent returns the loaded collection and the
    intent's response message, both unchanged, and leaves the world as it
    was: the calendar file is the same and no write took place. *)
Theorem list_events_reads_only {lc : LowerCase} (w : World) (intent : Intent) :
  action intent = "LIST_EVENTS" ->
  executeAction intent w =
    (Returns {| events := stored w; message := response intent |}, w).
Proof.
  intros Hact. enter_executeAction. rewrite Hact. reflexivity.
Qed.

Lemma list_events_reads_only_witness :
  action (list_intent "en" "Here are your events for today:") = "LIST_EVENTS" /\
  executeAction (list_intent "en" "Here are your events for today:")
    (world_with [standup; lunch]) =
    (Returns {| events := [standup; lunch];
                message := "Here are your events for today:" |},
     world_with [standup; lunch]).
Proof.
  split; [reflexivity |].
  apply (list_events_reads_only (world_with [standup; lunch])
           (list_intent "en" "Here are your events for today:")).
  reflexivity.
Defined.

(** C10. An intent whose action is none of ADD_EVENT, LIST_EVENTS and
    DELETE_EVENT returns the loaded collection and the intent's response
    message and leaves the world as it was: no write, no exception. *)
Theorem unknown_action_reads_only {lc : LowerCase} (w : World) (intent : Intent) :
  action intent <> "ADD_EVENT" ->
  action intent <> "LIST_EVENTS" ->
  action intent <> "DELETE_EVENT" ->
  executeAction intent w =
    (Returns {| events := stored w; message := response intent |}, w).
Proof.
  intros Hadd Hlist Hdel. enter_executeAction.
  apply String.eqb_neq in Hadd, Hlist, Hdel.
  rewrite Hadd, Hlist, Hdel. reflexivity.
Qed.

Lemma unknown_action_reads_only_witness :
  executeAction
    {| action := "UPDATE_EVENT"; language := "en";
       data := {| title := Some "Lunch"; date := None; time := Some "13:00";
                  query := Some "lunch" |};
       response := "I've moved your lunch." |}
    (world_with [lunch]) =
    (Returns {| events := [lunch]; message := "I've moved your lunch." |},
     world_with [lunch]).
Proof.
  apply (unknown_action_reads_only (world_with [lunch])
           {| action := "UPDATE_EVENT"; language := "en";
              data := {| title := Some "Lunch"; date := None; time := Some "13:00";
                         query := Some "lunch" |};
              response := "I've moved your lunch." |});
    simpl; discriminate.
Defined.

(* ===================================================================== *)
(** ** Adding an event *)
(* ===================================================================== *)

(** The event an addition creates in the world [w]. *)
Lemma add_event_creates {lc : LowerCase} (w : World) (intent : Intent) :
  action intent = "ADD_EVENT" ->
  let newEvent :=
    {| ev_id := (toString36 (now w) ++ draw w)%string;
       ev_title := title (data intent);
       ev_date := date (data intent);
       ev_time := time (data intent);
       ev_language := language intent;
       ev_createdAt := toISOString (clock w (S (clock_reads w))) |} in
  exists w',
    executeAction intent w =
      (Returns {| events := stored w ++ [newEvent];
                  message := response intent |}, w') /\
    stored w' = stored w ++ [newEvent] /\
    written w' = ArrayText (stored w ++ [newEvent]) :: written w.
Proof.
  intros Hact newEvent. enter_executeAction. rewrite Hact. simpl.
  eexists. repeat split.
Qed.

(** C2. An ADD_EVENT intent returns the loaded collection with one new
    event appended, so one event more.  The new event has the title, date
    and time of the intent's data and the intent's language; its id is
    generated from the clock reading and the random draw of this
    execution, its creation timestamp from the next clock reading.  The
    message is the intent's response, and the collection returned is the
    one written to the calendar file. *)
Theorem add_event_appends_one {lc : LowerCase} (w : World) (intent : Intent) :
  action intent = "ADD_EVENT" ->
  exists newEvent w',
    executeAction intent w =
      (Returns {| events := stored w ++ [newEvent];
                  message := response intent |}, w') /\
    length (stored w ++ [newEvent]) = S (length (stored w)) /\
    ev_title newEvent = title (data intent) /\
    ev_date newEvent = date (data intent) /\
    ev_time newEvent = time (data intent) /\
    ev_language newEvent = language intent /\
    ev_id newEvent = (toString36 (now w) ++ draw w)%string /\
    ev_createdAt newEvent = toISOString (clock w (S (clock_reads w))) /\
    stored w' = stored w ++ [newEvent] /\
    written w' = ArrayText (stored w ++ [newEvent]) :: written w.
Proof.
  intros Hact.
  destruct (add_event_creates w intent Hact) as [w' [Hrun [Hstored Hwritten]]].
  eexists. exists w'. split; [exact Hrun |].
  rewrite length_app, Nat.add_1_r. repeat split; assumption.
Qed.

Lemma add_event_appends_one_witness :
  action (add_intent "Meeting with John" "2023-11-15" "15:00" "en"
            "I've scheduled a meeting with John for tomorrow at 3 PM.")
    = "ADD_EVENT" /\
  exists newEvent w',
    executeAction
      (add_intent "Meeting with John" "2023-11-15" "15:00" "en"
         "I've scheduled a meeting with John for tomorrow at 3 PM.")
      (world_with [standup]) =
      (Returns {| events := [standup] ++ [newEvent];
                  message := "I've scheduled a meeting with John for tomorrow at 3 PM." |},
       w') /\
    ev_id newEvent = "loyw3v281000" /\
    ev_createdAt newEvent = "2023-11-14T22:13:20.001Z" /\
    stored w' = [standup] ++ [newEvent].
Proof.
  split; [reflexivity |].
  destruct (add_event_appends_one (world_with [standup])
              (add_intent "Meeting with John" "2023-11-15" "15:00" "en"
                 "I've scheduled a meeting with John for tomorrow at 3 PM.")
              eq_refl)
    as [newEvent [w' [Hrun [_ [_ [_ [_ [_ [Hid [Hcreated [Hstored _]]]]]]]]]]].
  exists newEvent, w'. repeat split; assumption.
Defined.

Example add_event_run :
  executeAction
    (add_intent "Meeting with John" "2023-11-15" "15:00" "en"
       "I've scheduled a meeting with John for tomorrow at 3 PM.")
    (world_with [standup]) =
    (Returns
       {| events :=
            [standup;
             {| ev_id := "loyw3v281000";
                ev_title := Some "Meeting with John";
                ev_date := Some "2023-11-15";
                ev_time := Some "15:00";
                ev_language := "en";
                ev_createdAt := "2023-11-14T22:13:20.001Z" |}];
          message := "I've scheduled a meeting with John for tomorrow at 3 PM." |},
     {| calendar_file :=
          Some (ArrayText
                  [standup;
                   {| ev_id := "loyw3v281000";
                      ev_title := Some "Meeting with John";
                      ev_date := Some "2023-11-15";
                      ev_time := Some "15:00";
                      ev_language := "en";
                      ev_createdAt := "2023-11-14T22:13:20.001Z" |}]);
        written :=
          [ArrayText
             [standup;
              {| ev_id := "loyw3v281000";
                 ev_title := Some "Meeting with John";
                 ev_date := Some "2023-11-15";
                 ev_time := Some "15:00";
                 ev_language := "en";
                 ev_createdAt := "2023-11-14T22:13:20.001Z" |}]];
        clock := clock (world_with [standup]);
        clock_reads := 2;
        random := random (world_with [standup]);
        random_draws := 1 |}).
Proof. reflexivity. Qed.

(* ===================================================================== *)
(** ** Deleting events *)
(* ===================================================================== *)

(** The events a deletion with the lower-case query [q] keeps. *)
Lemma kept_In {lc : LowerCase} (q : string) (l : list Event) (e : Event) :
  In e (filter (fun event => negb (matches q event)) l) <->
  In e l /\ ~ Matches q e.
Proof.
  rewrite filter_In, negb_true_iff, matches_false_spec. tauto.
Qed.

(** [deletedCount === 0] holds exactly when the filter kept every event. *)
Lemma deletedCount_zero (p : Event -> bool) (l : list Event) :
  (Z.of_nat (length l) - Z.of_nat (length (filter p l)) =? 0)%Z = forallb p l.
Proof.
  destruct (forallb p l) eqn:Hall.
  - rewrite (forallb_filter_id p l Hall). apply Z.eqb_eq. lia.
  - apply Z.eqb_neq. intros Hzero.
    assert (Hlen : length (filter p l) = length l) by lia.
    apply filter_length_forallb in Hlen. congruence.
Qed.

Lemma forallb_kept {lc : LowerCase} (q : string) (l : list Event) :
  forallb (fun event => negb (matches q event)) l = true <->
  forall e, In e l -> ~ Matches q e.
Proof.
  rewrite forallb_forall. split; intros H e He.
  - apply matches_false_spec, negb_true_iff, H, He.
  - apply negb_true_iff, matches_false_spec, H, He.
Qed.

(** What a deletion does, in one equation: it keeps the events that do not
    match, writes them, and chooses the message by the number deleted. *)
Lemma delete_event_run {lc : LowerCase} (w : World) (intent : Intent) (q : string) :
  action intent = "DELETE_EVENT" ->
  query (data intent) = Some q ->
  let kept :=
    filter (fun event => negb (matches (toLowerCase q) event)) (stored w) in
  exists w',
    executeAction intent w =
      (Returns
         {| events := kept;
            message :=
              if forallb (fun event => negb (matches (toLowerCase q) event))
                   (stored w)
              then (if language intent =? "hi" then NOT_FOUND_HI else NOT_FOUND_EN)
              else response intent |}, w') /\
    stored w' = kept /\
    written w' = ArrayText kept :: written w.
Proof.
  intros Hact Hq kept. enter_executeAction. rewrite Hact. simpl.
  unfold query_toLowerCase. rewrite Hq. simpl.
  rewrite deletedCount_zero. eexists. repeat split.
Qed.

(** The deletion rule of the code, exactly.  A DELETE_EVENT intent with
    query [q] keeps the loaded events that do not match, where an event
    matches when [q] in lower case is a substring of its nonempty time as
    stored, or of its nonempty title in lower case, or of its nonempty date
    as stored.  The events kept stay in their order and are what the
    calendar file holds afterwards. *)
Lemma delete_event_removes_matches {lc : LowerCase} (w : World) (intent : Intent) (q : string) :
  action intent = "DELETE_EVENT" ->
  query (data intent) = Some q ->
  exists r w',
    executeAction intent w = (Returns r, w') /\
    (forall e, In e (events r) <->
               In e (stored w) /\ ~ Matches (toLowerCase q) e) /\
    events r =
      filter (fun event => negb (matches (toLowerCase q) event)) (stored w) /\
    stored w' = events r.
Proof.
  intros Hact Hq.
  destruct (delete_event_run w intent q Hact Hq) as [w' [Hrun [Hstored _]]].
  eexists. exists w'. split; [exact Hrun |]. simpl. split; [| split].
  - intros e. apply kept_In.
  - reflexivity.
  - exact Hstored.
Qed.

Lemma is_digit_basic_latin (c : ascii) :
  is_digit c = true ->
  (nat_of_ascii c <? 128)%nat = true /\ lower_ascii c = c.
Proof.
  unfold is_digit, lower_ascii. cbv zeta.
  rewrite andb_true_iff, !Nat.leb_le. intros [Hlo Hhi]. split.
  - apply Nat.ltb_lt. lia.
  - destruct (Nat.leb_spec 65 (nat_of_ascii c)); [lia | reflexivity].
Qed.

(** A time in the format [HH:MM] is not empty and has no letter to
    lower-case. *)
Lemma is_HHMM_lower {lc : LowerCase} (t : string) :
  is_HHMM t = true -> t <> EmptyString /\ toLowerCase t = t.
Proof.
  intros Hfmt.
  destruct t as [|h1 [|h2 [|c [|m1 [|m2 [|x t]]]]]]; try discriminate Hfmt.
  cbn [is_HHMM] in Hfmt. rewrite !andb_true_iff in Hfmt.
  destruct Hfmt as [[[[H1 H2] Hc] H3] H4].
  apply Ascii.eqb_eq in Hc. subst c.
  destruct (is_digit_basic_latin h1 H1) as [A1 L1].
  destruct (is_digit_basic_latin h2 H2) as [A2 L2].
  destruct (is_digit_basic_latin m1 H3) as [A3 L3].
  destruct (is_digit_basic_latin m2 H4) as [A4 L4].
  split; [discriminate |].
  rewrite toLowerCase_basic_latin.
  - cbn [lower_basic_latin]. rewrite L1, L2, L3, L4. reflexivity.
  - cbn [is_basic_latin]. rewrite A1, A2, A3, A4. reflexivity.
Qed.

Lemma Substring_of_empty (q : string) : Substring q EmptyString -> q = EmptyString.
Proof.
  intros [pre [suf H]]. destruct pre; [| discriminate H].
  destruct q; [reflexivity | discriminate H].
Qed.

Lemma Substring_empty (s : string) : Substring EmptyString s.
Proof. now exists EmptyString, s. Qed.

(** On an event that has a time in the format of the data model, the
    rule of the code and the rule in the words of the specification
    agree. *)
Lemma Matches_iff_SpecMatches {lc : LowerCase} (query : string) (e : Event) :
  HasTime e ->
  Matches (toLowerCase query) e <-> SpecMatches query e.
Proof.
  intros [t [Ht Hfmt]]. destruct (is_HHMM_lower t Hfmt) as [Hne Hlow].
  unfold Matches, SpecMatches, FieldHas, SubstringCI.
  assert (Hvia_time : toLowerCase query = EmptyString ->
            exists s, ev_time e = Some s /\ s <> EmptyString /\
                      Substring (toLowerCase query) s).
  { intros ->. exists t. repeat split; [exact Ht | exact Hne | apply Substring_empty]. }
  split.
  - intros [[s [Hs [_ Hsub]]] | [[s [Hs [_ Hsub]]] | [d [Hd [_ Hsub]]]]].
    + left. exists s. split; [exact Hs |].
      rewrite Ht in Hs. injection Hs as <-. now rewrite Hlow.
    + right; left. now exists s.
    + right; right. now exists d.
  - intros [[s [Hs Hsub]] | [[s [Hs Hsub]] | [d [Hd Hsub]]]].
    + left. exists s. rewrite Ht in Hs. injection Hs as <-.
      rewrite Hlow in Hsub. now repeat split.
    + destruct s as [|c s].
      * left. apply Hvia_time. rewrite toLowerCase_empty in Hsub.
        now apply Substring_of_empty.
      * right; left. exists (String c s). repeat split; [exact Hs | discriminate | exact Hsub].
    + destruct d as [|c d].
      * left. apply Hvia_time. now apply Substring_of_empty.
      * right; right. exists (String c d). repeat split; [exact Hd | discriminate | exact Hsub].
Qed.

(** C1. For a loaded collection of the data model, each event with a time
    in the format [HH:MM], a DELETE_EVENT intent with query [q] removes
    exactly the events for which [q], in lower case, is a case-insensitive
    substring of the time, or a case-insensitive substring of the title,
    or a substring of the date: an event is in the collection returned if
    and only if it was loaded and none of the three holds.  The events kept
    stay in their order and are what the calendar file holds afterwards. *)
Theorem delete_event_removes_spec_matches {lc : LowerCase}
    (w : World) (intent : Intent) (q : string) :
  action intent = "DELETE_EVENT" ->
  query (data intent) = Some q ->
  (forall e, In e (stored w) -> HasTime e) ->
  exists r w',
    executeAction intent w = (Returns r, w') /\
    (forall e, In e (events r) <-> In e (stored w) /\ ~ SpecMatches q e) /\
    (forall e, In e (stored w) -> SpecMatches q e -> ~ In e (events r)) /\
    (exists keep, events r = filter keep (stored w)) /\
    stored w' = events r.
Proof.
  intros Hact Hq Hmodel.
  destruct (delete_event_run w intent q Hact Hq) as [w' [Hrun [Hstored _]]].
  assert (Hiff : forall e,
            In e (filter (fun event => negb (matches (toLowerCase q) event)) (stored w))
            <-> In e (stored w) /\ ~ SpecMatches q e).
  { intros e. rewrite kept_In. split.
    - intros [He Hno]. split; [exact He |].
      intros Hm. apply Hno. now apply (Matches_iff_SpecMatches q e (Hmodel e He)).
    - intros [He Hno]. split; [exact He |].
      intros Hm. apply Hno. now apply (Matches_iff_SpecMatches q e (Hmodel e He)). }
  eexists. exists w'. split; [exact Hrun |]. cbn [events].
  split; [exact Hiff |]. split; [| split].
  - intros e He Hm Hin. apply Hiff in Hin. exact (proj2 Hin Hm).
  - eexists. reflexivity.
  - exact Hstored.
Qed.

Lemma delete_event_removes_spec_matches_witness :
  (forall e, In e (stored (world_with [standup; review])) -> HasTime e) /\
  SpecMatches "Review" review /\
  ~ SpecMatches "Review" standup /\
  exists r w',
    executeAction (delete_intent "Review" "en" "I'll cancel your review.")
      (world_with [standup; review]) = (Returns r, w') /\
    (forall e, In e (events r) <->
               In e (stored (world_with [standup; review])) /\ ~ SpecMatches "Review" e) /\
    (forall e, In e (stored (world_with [standup; review])) ->
               SpecMatches "Review" e -> ~ In e (events r)) /\
    (exists keep, events r = filter keep (stored (world_with [standup; review]))) /\
    stored w' = events r.
Proof.
  assert (Hmodel : forall e, In e (stored (world_with [standup; review])) -> HasTime e).
  { intros e [<- | [<- | []]]; eexists; split; reflexivity. }
  split; [exact Hmodel |]. split; [| split].
  - apply (Matches_iff_SpecMatches "Review" review (Hmodel review (or_intror (or_introl eq_refl)))).
    apply matches_spec. reflexivity.
  - intros Hm.
    apply (Matches_iff_SpecMatches "Review" standup (Hmodel standup (or_introl eq_refl))) in Hm.
    apply matches_spec in Hm. discriminate Hm.
  - exact (delete_event_removes_spec_matches (world_with [standup; review])
             (delete_intent "Review" "en" "I'll cancel your review.") "Review"
             eq_refl eq_refl Hmodel).
Defined.

Example delete_event_removes_review :
  fst (executeAction (delete_intent "Review" "en" "I'll cancel your review.")
         (world_with [standup; review])) =
    Returns {| events := [standup]; message := "I'll cancel your review." |}.
Proof. reflexivity. Qed.

(** Outside the data model, a time with capital letters is compared as
    it is stored: the query [PM] is a case-insensitive substring of the
    time [3 PM], yet the deletion keeps the event, for the code looks for
    [pm] in the time as stored. *)
Example delete_event_time_as_stored :
  SpecMatches "PM" lunch /\
  is_HHMM "3 PM" = false /\
  fst (executeAction (delete_intent "PM" "en" "I'll cancel your 3 PM meeting.")
         (world_with [lunch])) =
    Returns {| events := [lunch]; message := NOT_FOUND_EN |}.
Proof.
  split; [| split; reflexivity].
  left. exists "3 PM". split; [reflexivity |].
  exists "3 ", "". reflexivity.
Qed.

(** C3. For a DELETE_EVENT intent: when no loaded event matches the
    query, the collection returned and stored is the loaded one and the
    message is the fixed one for "not found", in Hindi when the intent's
    language is [hi] and in English otherwise; when some loaded event
    matches, the message is the intent's response. *)
Theorem delete_event_message {lc : LowerCase} (w : World) (intent : Intent) (q : string) :
  action intent = "DELETE_EVENT" ->
  query (data intent) = Some q ->
  exists r w',
    executeAction intent w = (Returns r, w') /\
    ((forall e, In e (stored w) -> ~ Matches (toLowerCase q) e) ->
     events r = stored w /\
     stored w' = stored w /\
     message r =
       if language intent =? "hi" then NOT_FOUND_HI else NOT_FOUND_EN) /\
    ((exists e, In e (stored w) /\ Matches (toLowerCase q) e) ->
     message r = response intent).
Proof.
  intros Hact Hq.
  destruct (delete_event_run w intent q Hact Hq) as [w' [Hrun [Hstored _]]].
  eexists. exists w'. split; [exact Hrun |]. simpl. split.
  - intros Hnone. apply (proj2 (forallb_kept _ _)) in Hnone.
    rewrite Hstored, Hnone, (forallb_filter_id _ _ Hnone). repeat split.
  - intros [e [He Hm]].
    destruct (forallb _ (stored w)) eqn:Hall; [| reflexivity].
    elim (proj1 (forallb_kept _ _) Hall e He Hm).
Qed.

Lemma delete_event_message_witness :
  (forall e, In e [standup; lunch] -> ~ Matches "dentist" e) /\
  (exists e, In e [standup; lunch] /\ Matches "lunch" e) /\
  (exists r w',
     executeAction (delete_intent "Dentist" "hi" "ok") (world_with [standup; lunch])
       = (Returns r, w') /\
     events r = [standup; lunch] /\
     stored w' = [standup; lunch] /\
     message r = NOT_FOUND_HI) /\
  (exists r w',
     executeAction (delete_intent "Dentist" "en" "ok") (world_with [standup; lunch])
       = (Returns r, w') /\
     events r = [standup; lunch] /\
     message r = NOT_FOUND_EN) /\
  (exists r w',
     executeAction (delete_intent "Lunch" "hi" "ok") (world_with [standup; lunch])
       = (Returns r, w') /\
     message r = "ok").
Proof.
  assert (Hnone : forall e, In e [standup; lunch] -> ~ Matches "dentist" e).
  { intros e He. apply matches_false_spec.
    destruct He as [<- | [<- | []]]; reflexivity. }
  assert (Hsome : exists e, In e [standup; lunch] /\ Matches "lunch" e).
  { exists lunch. split; [right; left; reflexivity |].
    apply matches_spec. reflexivity. }
  split; [exact Hnone |]. split; [exact Hsome |]. repeat split.
  - destruct (delete_event_message (world_with [standup; lunch])
                (delete_intent "Dentist" "hi" "ok") "Dentist" eq_refl eq_refl)
      as [r [w' [Hrun [Hzero _]]]].
    destruct (Hzero Hnone) as [Hev [Hst Hmsg]].
    exists r, w'. repeat split; assumption.
  - destruct (delete_event_message (world_with [standup; lunch])
                (delete_intent "Dentist" "en" "ok") "Dentist" eq_refl eq_refl)
      as [r [w' [Hrun [Hzero _]]]].
    destruct (Hzero Hnone) as [Hev [Hst Hmsg]].
    exists r, w'. repeat split; assumption.
  - destruct (delete_event_message (world_with [standup; lunch])
                (delete_intent "Lunch" "hi" "ok") "Lunch" eq_refl eq_refl)
      as [r [w' [Hrun [_ Hsome']]]].
    exists r, w'. split; [exact Hrun | exact (Hsome' Hsome)].
Defined.

Lemma empty_query_matches_all {lc : LowerCase} (l : list Event) :
  (forall e, In e l -> HasNonemptyField e) ->
  filter (fun event => negb (matches (toLowerCase EmptyString) event)) l = [].
Proof.
  intros Hfields. rewrite toLowerCase_empty.
  induction l as [|e l IH]; [reflexivity |].
  cbn [filter].
  assert (Hm : matches EmptyString e = true).
  { apply matches_spec. unfold Matches, FieldHas.
    destruct (Hfields e (or_introl eq_refl))
      as [[s [Hs Hne]] | [[s [Hs Hne]] | [s [Hs Hne]]]].
    - left. exists s. repeat split; try assumption. now exists EmptyString, s.
    - right; left. exists s. repeat split; try assumption.
      now exists EmptyString, (toLowerCase s).
    - right; right. exists s. repeat split; try assumption.
      now exists EmptyString, s. }
  rewrite Hm. cbn [negb]. apply IH. intros e' He'. apply Hfields. now right.
Qed.

(** C9. When every loaded event has a nonempty field among time, title
    and date, a DELETE_EVENT intent whose query is the empty string
    removes every event: the collection returned and stored is empty. *)
Theorem delete_event_empty_query {lc : LowerCase} (w : World) (intent : Intent) :
  action intent = "DELETE_EVENT" ->
  query (data intent) = Some EmptyString ->
  (forall e, In e (stored w) -> HasNonemptyField e) ->
  exists r w',
    executeAction intent w = (Returns r, w') /\
    events r = [] /\
    stored w' = [].
Proof.
  intros Hact Hq Hfields.
  destruct (delete_event_run w intent EmptyString Hact Hq)
    as [w' [Hrun [Hstored _]]].
  pose proof (empty_query_matches_all (stored w) Hfields) as Hnil.
  eexists. exists w'. split; [exact Hrun |].
  split; [exact Hnil | rewrite Hstored; exact Hnil].
Qed.

Lemma delete_event_empty_query_witness :
  (forall e, In e [standup; lunch] -> HasNonemptyField e) /\
  exists r w',
    executeAction (delete_intent "" "en" "I'll cancel that.")
      (world_with [standup; lunch]) = (Returns r, w') /\
    events r = [] /\
    stored w' = [].
Proof.
  assert (Hfields : forall e, In e [standup; lunch] -> HasNonemptyField e).
  { intros e [<- | [<- | []]]; left; eexists; (split; [reflexivity | discriminate]). }
  split; [exact Hfields |].
  exact (delete_event_empty_query (world_with [standup; lunch])
           (delete_intent "" "en" "I'll cancel that.") eq_refl eq_refl Hfields).
Defined.

(* ===================================================================== *)
(** ** Loading the calendar file *)
(* ===================================================================== *)

(** Without calendar file, [loadEvents] returns the empty collection and
    no exception. *)
Lemma loadEvents_absent_file (w : World) :
  calendar_file w = None -> loadEvents w = (Returns [], w).
Proof.
  intros Hnone. rewrite loadEvents_returns. unfold stored. now rewrite Hnone.
Qed.

(** Whatever text the calendar file holds that is not JSON, [loadEvents]
    returns the empty collection and no exception. *)
Lemma loadEvents_swallows_SyntaxError (w : World) (text : string) :
  calendar_file w = Some (Malformed text) -> loadEvents w = (Returns [], w).
Proof.
  intros Hbad. rewrite loadEvents_returns. unfold stored. now rewrite Hbad.
Qed.

(** C7, at the failing input.  The calendar file holds a text that is not
    JSON: [JSON.parse] throws a [SyntaxError], and [loadEvents] catches it
    and returns the empty collection.  The next addition then replaces
    the file by a collection of one event. *)
Theorem loadEvents_corrupt_file {lc : LowerCase} :
  fs_readFile corrupt_world = (Returns (Malformed "[{ id: "), corrupt_world) /\
  JSON_parse (Malformed "[{ id: ") corrupt_world = (Throws SyntaxError, corrupt_world) /\
  loadEvents corrupt_world = (Returns [], corrupt_world) /\
  let after :=
    executeAction (add_intent "Lunch" "2023-11-16" "13:00" "en" "Added.")
      corrupt_world in
  let added :=
    {| ev_id := "loyw3v281000";
       ev_title := Some "Lunch";
       ev_date := Some "2023-11-16";
       ev_time := Some "13:00";
       ev_language := "en";
       ev_createdAt := "2023-11-14T22:13:20.001Z" |} in
  fst after = Returns {| events := [added]; message := "Added." |} /\
  calendar_file (snd after) = Some (ArrayText [added]).
Proof.
  split; [reflexivity |]. split; [reflexivity |]. split; [reflexivity |].
  split; reflexivity.
Qed.

(* ===================================================================== *)
(** ** Facts about the comparison of confidence scores *)
(* ===================================================================== *)

Section FloatFacts.

Lemma SFcompare_swap (x y : spec_float) :
  SFcompare y x = option_map CompOpp (SFcompare x y).
Proof.
  destruct x as [sx | sx | | sx mx ex], y as [sy | sy | | sy my ey];
    simpl; try reflexivity;
    try (destruct sx; reflexivity); try (destruct sy; reflexivity);
    try (destruct sx, sy; reflexivity).
  assert (Hpos : forall c, Pos.compare_cont c my mx
                       = CompOpp (Pos.compare_cont (CompOpp c) mx my)).
  { intros c. rewrite Pos.compare_cont_antisym, CompOpp_involutive. reflexivity. }
  destruct sx, sy; simpl; try reflexivity;
    rewrite (Z.compare_antisym ey ex), (Hpos Eq);
    destruct (ey ?= ex)%Z; simpl; try reflexivity.
Qed.

Lemma ltb_asym (a b : float) :
  (a <? b)%float = true -> (b <? a)%float = false.
Proof.
  rewrite !FloatAxioms.ltb_spec. unfold SFltb. rewrite (SFcompare_swap (Prim2SF a)).
  destruct (SFcompare (Prim2SF a) (Prim2SF b)) as [[| |]|];
    simpl; congruence.
Qed.

Lemma eqb_not_ltb (a b : float) :
  (a =? b)%float = true -> (a <? b)%float = false /\ (b <? a)%float = false.
Proof.
  rewrite FloatAxioms.eqb_spec, !FloatAxioms.ltb_spec. unfold SFeqb, SFltb.
  rewrite (SFcompare_swap (Prim2SF a)).
  destruct (SFcompare (Prim2SF a) (Prim2SF b)) as [[| |]|];
    simpl; intros H; split; congruence.
Qed.

Lemma is_zero_spec (a : float) :
  is_zero a = true -> exists s, Prim2SF a = S754_zero s.
Proof.
  unfold is_zero. rewrite FloatAxioms.eqb_spec. unfold SFeqb.
  change (Prim2SF zero) with (S754_zero false).
  destruct (Prim2SF a) as [s | s | | s m e]; simpl.
  - intros _. now exists s.
  - destruct s; discriminate.
  - discriminate.
  - destruct s; discriminate.
Qed.

Lemma SFcompare_zero_l (s : bool) (y : spec_float) :
  SFcompare (S754_zero s) y = SFcompare (S754_zero false) y.
Proof. destruct y; reflexivity. Qed.

Lemma SFcompare_zero_r (s : bool) (x : spec_float) :
  SFcompare x (S754_zero s) = SFcompare x (S754_zero false).
Proof. destruct x; reflexivity. Qed.

Lemma Prim2SF_or_zero (c : float) :
  is_nan c = false ->
  forall y, SFcompare (Prim2SF (or_zero (Some c))) y = SFcompare (Prim2SF c) y /\
            SFcompare y (Prim2SF (or_zero (Some c))) = SFcompare y (Prim2SF c).
Proof.
  intros Hnan y. unfold or_zero. rewrite Hnan, orb_false_r.
  destruct (is_zero c) eqn:Hz; [| split; reflexivity].
  destruct (is_zero_spec c Hz) as [s ->].
  change (Prim2SF 0) with (S754_zero false).
  now rewrite (SFcompare_zero_l s), (SFcompare_zero_r s).
Qed.

Lemma ltb_or_zero (a b : float) :
  is_nan a = false -> is_nan b = false ->
  (or_zero (Some a) <? or_zero (Some b))%float = (a <? b)%float.
Proof.
  intros Ha Hb. rewrite !FloatAxioms.ltb_spec. unfold SFltb.
  rewrite (proj1 (Prim2SF_or_zero a Ha _)), (proj2 (Prim2SF_or_zero b Hb _)).
  reflexivity.
Qed.

Lemma is_nan_spec (c : float) :
  is_nan c = true -> Prim2SF c = S754_nan.
Proof.
  unfold is_nan. rewrite negb_true_iff, FloatAxioms.eqb_spec. unfold SFeqb.
  destruct (Prim2SF c) as [s | s | | s m e]; simpl.
  - discriminate.
  - destruct s; discriminate.
  - reflexivity.
  - destruct s; rewrite Z.compare_refl, Pos.compare_cont_refl; discriminate.
Qed.

(** Against [0], the default [c || 0] compares as [c] does, whatever
    [c] is. *)
Lemma ltb_zero_or_zero (c : float) :
  (0 <? or_zero (Some c))%float = (0 <? c)%float /\
  (or_zero (Some c) <? 0)%float = (c <? 0)%float.
Proof.
  destruct (is_nan c) eqn:Hnan.
  - unfold or_zero. rewrite Hnan, orb_true_r.
    rewrite !FloatAxioms.ltb_spec, (is_nan_spec c Hnan). split; reflexivity.
  - rewrite !FloatAxioms.ltb_spec. unfold SFltb.
    rewrite (proj1 (Prim2SF_or_zero c Hnan _)), (proj2 (Prim2SF_or_zero c Hnan _)).
    split; reflexivity.
Qed.

End FloatFacts.

(* ===================================================================== *)
(** ** Choosing between the two transcripts *)
(* ===================================================================== *)

Lemma transcribe_compares (en hi : Attempt) :
  error en = None \/ error hi = None ->
  let enAlt := first_alternative (result en) in
  let hiAlt := first_alternative (result hi) in
  transcribe en hi =
    Returns
      (if (or_zero (chain enAlt confidence) <? or_zero (chain hiAlt confidence))%float
       then {| transcribedText := or_empty (chain hiAlt transcript);
               detectedLanguage := "hi" |}
       else {| transcribedText := or_empty (chain enAlt transcript);
               detectedLanguage := "en" |}).
Proof.
  intros Herr. unfold transcribe.
  destruct (error en), (error hi);
    try (destruct Herr; discriminate);
    simpl; destruct (_ <? _)%float; reflexivity.
Qed.

(** C5. When both attempts gave a result, with transcripts [tEn], [tHi]
    and confidence scores [cEn], [cHi], the selection is a function of the
    comparison of the scores: the Hindi transcript with the tag [hi] when
    [cHi] is strictly greater than [cEn], and only then; the English
    transcript with the tag [en] when [cEn] is strictly greater, and also
    when the scores are equal. *)
Theorem transcribe_higher_confidence_wins
    (en hi : Attempt) (tEn tHi : string) (cEn cHi : float) :
  error en = None \/ error hi = None ->
  first_alternative (result en)
    = Some {| transcript := Some tEn; confidence := Some cEn |} ->
  first_alternative (result hi)
    = Some {| transcript := Some tHi; confidence := Some cHi |} ->
  is_nan cEn = false ->
  is_nan cHi = false ->
  let english := {| transcribedText := tEn; detectedLanguage := "en" |} in
  let hindi := {| transcribedText := tHi; detectedLanguage := "hi" |} in
  transcribe en hi = Returns (if (cEn <? cHi)%float then hindi else english) /\
  ((cEn <? cHi)%float = true -> transcribe en hi = Returns hindi) /\
  ((cHi <? cEn)%float = true -> transcribe en hi = Returns english) /\
  ((cEn =? cHi)%float = true -> transcribe en hi = Returns english) /\
  (transcribe en hi = Returns hindi <-> (cEn <? cHi)%float = true).
Proof.
  intros Herr Hen Hhi HnanEn HnanHi english hindi.
  assert (Hrun : transcribe en hi
                 = Returns (if (cEn <? cHi)%float then hindi else english)).
  { rewrite (transcribe_compares en hi Herr). cbv zeta.
    rewrite Hen, Hhi. cbn [chain transcript confidence or_empty].
    rewrite (ltb_or_zero cEn cHi HnanEn HnanHi).
    destruct (cEn <? cHi)%float; reflexivity. }
  split; [exact Hrun |]. rewrite Hrun. repeat split.
  - intros ->. reflexivity.
  - intros Hlt. now rewrite (ltb_asym cHi cEn Hlt).
  - intros Heq. now rewrite (proj1 (eqb_not_ltb cEn cHi Heq)).
  - destruct (cEn <? cHi)%float; [reflexivity | discriminate].
  - intros ->. reflexivity.
Qed.

Lemma transcribe_higher_confidence_wins_witness :
  (is_nan 0.875 = false /\ is_nan 0.625 = false /\ (0.625 <? 0.875)%float = true) /\
  transcribe (heard "schedule a meeting" 0.875) (heard "shedyul e miting" 0.625)
    = Returns {| transcribedText := "schedule a meeting"; detectedLanguage := "en" |} /\
  transcribe (heard "schedule a meeting" 0.625) (heard "shedyul e miting" 0.875)
    = Returns {| transcribedText := "shedyul e miting"; detectedLanguage := "hi" |} /\
  transcribe (heard "schedule a meeting" 0.625) (heard "shedyul e miting" 0.625)
    = Returns {| transcribedText := "schedule a meeting"; detectedLanguage := "en" |}.
Proof.
  split; [repeat split |]. split; [| split].
  - exact (proj1 (proj2 (proj2
      (transcribe_higher_confidence_wins
         (heard "schedule a meeting" 0.875) (heard "shedyul e miting" 0.625)
         "schedule a meeting" "shedyul e miting" 0.875 0.625
         (or_introl eq_refl) eq_refl eq_refl eq_refl eq_refl))) eq_refl).
  - exact (proj1 (proj2
      (transcribe_higher_confidence_wins
         (heard "schedule a meeting" 0.625) (heard "shedyul e miting" 0.875)
         "schedule a meeting" "shedyul e miting" 0.625 0.875
         (or_introl eq_refl) eq_refl eq_refl eq_refl eq_refl)) eq_refl).
  - exact (proj1 (proj2 (proj2 (proj2
      (transcribe_higher_confidence_wins
         (heard "schedule a meeting" 0.625) (heard "shedyul e miting" 0.625)
         "schedule a meeting" "shedyul e miting" 0.625 0.625
         (or_introl eq_refl) eq_refl eq_refl eq_refl eq_refl)))) eq_refl).
Defined.

(** C6, as amended.  When both attempts report an error, the stage throws
    and the request is aborted.  When exactly one attempt fails, leaving
    no result, it enters the comparison as the empty transcript at
    confidence [0]: a surviving Hindi result is selected when its
    confidence is greater than [0], a surviving English result unless its
    confidence is less than [0]; otherwise the empty transcript is selected,
    with the language of the failed attempt. *)
Theorem transcribe_with_failed_attempts (en hi : Attempt) :
  (error en <> None -> error hi <> None ->
   transcribe en hi = Throws (Error BOTH_FAILED)) /\
  (forall tHi cHi,
     error en <> None -> result en = None -> error hi = None ->
     first_alternative (result hi)
       = Some {| transcript := Some tHi; confidence := Some cHi |} ->
     transcribe en hi =
       Returns (if (0 <? cHi)%float
                then {| transcribedText := tHi; detectedLanguage := "hi" |}
                else {| transcribedText := EmptyString; detectedLanguage := "en" |})) /\
  (forall tEn cEn,
     error hi <> None -> result hi = None -> error en = None ->
     first_alternative (result en)
       = Some {| transcript := Some tEn; confidence := Some cEn |} ->
     transcribe en hi =
       Returns (if (cEn <? 0)%float
                then {| transcribedText := EmptyString; detectedLanguage := "hi" |}
                else {| transcribedText := tEn; detectedLanguage := "en" |})).
Proof.
  split; [| split].
  - intros Hen Hhi. unfold transcribe.
    destruct (error en); [| now elim Hen].
    destruct (error hi); [reflexivity | now elim Hhi].
  - intros tHi cHi _ Hres Herr Halt.
    rewrite (transcribe_compares en hi (or_intror Herr)). cbv zeta.
    rewrite Hres, Halt. cbn [first_alternative chain transcript confidence or_empty].
    change (or_zero None) with 0%float.
    now rewrite (proj1 (ltb_zero_or_zero cHi)).
  - intros tEn cEn _ Hres Herr Halt.
    rewrite (transcribe_compares en hi (or_introl Herr)). cbv zeta.
    rewrite Hres, Halt. cbn [first_alternative chain transcript confidence or_empty].
    change (or_zero None) with 0%float.
    now rewrite (proj2 (ltb_zero_or_zero cEn)).
Qed.

Lemma transcribe_with_failed_attempts_witness :
  transcribe (failed "timeout") (failed "timeout") = Throws (Error BOTH_FAILED) /\
  transcribe (failed "timeout") (heard "kal shaam paanch baje" 0.75)
    = Returns {| transcribedText := "kal shaam paanch baje"; detectedLanguage := "hi" |} /\
  transcribe (heard "cancel my meeting" 0.75) (failed "timeout")
    = Returns {| transcribedText := "cancel my meeting"; detectedLanguage := "en" |}.
Proof.
  split; [| split].
  - apply (proj1 (transcribe_with_failed_attempts
                    (failed "timeout") (failed "timeout"))); discriminate.
  - apply (proj1 (proj2 (transcribe_with_failed_attempts
                           (failed "timeout") (heard "kal shaam paanch baje" 0.75)))
             "kal shaam paanch baje" 0.75%float);
      try reflexivity; discriminate.
  - apply (proj2 (proj2 (transcribe_with_failed_attempts
                           (heard "cancel my meeting" 0.75) (failed "timeout")))
             "cancel my meeting" 0.75%float);
      try reflexivity; discriminate.
Defined.

(** C6, as stated, fails.  The English attempt fails and the Hindi
    attempt succeeds with confidence [0]: the Hindi transcript and tag are
    not used; the empty English transcript is selected with the tag [en]. *)
Lemma transcribe_survivor_not_used_counterexample :
  error (failed "timeout") <> None /\
  error (heard "kal shaam paanch baje" 0) = None /\
  transcribe (failed "timeout") (heard "kal shaam paanch baje" 0)
    = Returns {| transcribedText := EmptyString; detectedLanguage := "en" |} /\
  transcribe (failed "timeout") (heard "kal shaam paanch baje" 0)
    <> Returns {| transcribedText := "kal shaam paanch baje"; detectedLanguage := "hi" |}.
Proof.
  split; [discriminate |]. split; [reflexivity |].
  split; [reflexivity | discriminate].
Qed.

(* ===================================================================== *)
(** ** Facts about base 36 *)
(* ===================================================================== *)

Section Base36.

Local Open Scope N_scope.

Lemma digit_value_digit36 (d : N) : d < 36 -> digit_value (digit36 d) = d.
Proof.
  intros Hd. unfold digit_value, digit36.
  destruct (N.ltb_spec d 10) as [Hlt | Hge].
  - rewrite N_ascii_embedding by lia.
    destruct (N.ltb_spec (48 + d) 58); lia.
  - rewrite N_ascii_embedding by lia.
    destruct (N.ltb_spec (87 + d) 58); lia.
Qed.

Lemma digits36_bound (fuel : nat) (n : N) :
  Forall (fun d => d < 36) (digits36 fuel n).
Proof.
  revert n. induction fuel as [|fuel IH]; intros n; simpl.
  - constructor.
  - constructor.
    + apply N.mod_lt. discriminate.
    + destruct (n / 36 =? 0); [constructor | apply IH].
Qed.

Lemma value36_digits36 (fuel : nat) (n : N) :
  n < 2 ^ N.of_nat fuel -> value36 (digits36 fuel n) = n.
Proof.
  revert n. induction fuel as [|fuel IH]; intros n Hn.
  - simpl in *. lia.
  - cbn [digits36]. pose proof (N.div_mod n 36 ltac:(discriminate)) as Hdm.
    destruct (N.eqb_spec (n / 36) 0) as [Hz | Hnz]; cbn [value36].
    + lia.
    + rewrite IH; [lia |].
      rewrite Nat2N.inj_succ, N.pow_succ_r' in Hn.
      apply N.Div0.div_lt_upper_bound; lia.
Qed.

Lemma map_digit36_inj (l1 l2 : list N) :
  Forall (fun d => d < 36) l1 -> Forall (fun d => d < 36) l2 ->
  map digit36 l1 = map digit36 l2 -> l1 = l2.
Proof.
  intros H1. revert l2. induction H1 as [|d1 l1 Hd1 _ IH]; intros l2 H2 Heq.
  - destruct l2; [reflexivity | discriminate].
  - destruct H2 as [|d2 l2 Hd2 H2]; [discriminate |].
    simpl in Heq. injection Heq as Hd Hl. f_equal.
    + rewrite <- (digit_value_digit36 d1 Hd1), <- (digit_value_digit36 d2 Hd2).
      now rewrite Hd.
    + now apply IH.
Qed.

Lemma enough_fuel (n : N) : n < 2 ^ N.of_nat (S (N.to_nat (N.log2 n))).
Proof.
  rewrite Nat2N.inj_succ, N2Nat.id.
  destruct (N.eq_dec n 0) as [-> | Hpos]; [reflexivity |].
  apply N.log2_spec. lia.
Qed.

Lemma toString36_inj (a b : N) : toString36 a = toString36 b -> a = b.
Proof.
  unfold toString36. intros H.
  apply (f_equal list_ascii_of_string) in H.
  rewrite !list_ascii_of_string_of_list_ascii in H.
  apply map_digit36_inj in H;
    try (apply Forall_rev, digits36_bound).
  apply (f_equal (@rev N)) in H. rewrite !rev_involutive in H.
  rewrite <- (value36_digits36 _ a (enough_fuel a)),
          <- (value36_digits36 _ b (enough_fuel b)).
  now rewrite H.
Qed.

(** A number with [k + 1] digits in base 36 *)
Lemma digits36_length (k fuel : nat) (n : N) :
  (k <= fuel)%nat ->
  36 ^ N.of_nat k <= n < 36 ^ N.of_nat (S k) ->
  List.length (digits36 (S fuel) n) = S k.
Proof.
  revert fuel n. induction k as [|k IH]; intros fuel n Hk [Hlo Hhi].
  - cbn [digits36]. simpl in Hhi.
    rewrite (N.div_small n 36) by lia. reflexivity.
  - cbn [digits36].
    rewrite Nat2N.inj_succ, N.pow_succ_r' in Hlo.
    rewrite (Nat2N.inj_succ (S k)), N.pow_succ_r' in Hhi.
    assert (Hq : 36 ^ N.of_nat k <= n / 36 < 36 ^ N.of_nat (S k)).
    { split.
      - apply N.div_le_lower_bound; lia.
      - apply N.Div0.div_lt_upper_bound; lia. }
    assert (Hpos : 0 < 36 ^ N.of_nat k) by (apply N.neq_0_lt_0, N.pow_nonzero; discriminate).
    destruct (N.eqb_spec (n / 36) 0) as [Hz | _]; [lia |].
    destruct fuel as [|fuel]; [lia |].
    simpl List.length. f_equal. apply IH; [lia | exact Hq].
Qed.

Lemma length_string_of_list_ascii (l : list ascii) :
  String.length (string_of_list_ascii l) = List.length l.
Proof. induction l; simpl; congruence. Qed.

(** Clock readings from 1972-06-25 to 2059-05-25 have eight digits. *)
Lemma toString36_length_8 (n : N) :
  78364164096 <= n < 2821109907456 -> String.length (toString36 n) = 8%nat.
Proof.
  intros [Hlo Hhi]. unfold toString36.
  rewrite length_string_of_list_ascii, length_map, length_rev.
  apply (digits36_length 7).
  - assert (H : N.log2 78364164096 <= N.log2 n) by (apply N.log2_le_mono; exact Hlo).
    change (N.log2 78364164096) with 36 in H. lia.
  - split; [exact Hlo | exact Hhi].
Qed.

Lemma append_inj (a b r1 r2 : string) :
  String.length a = String.length b ->
  (a ++ r1)%string = (b ++ r2)%string -> a = b /\ r1 = r2.
Proof.
  revert b. induction a as [|c a IH]; intros [|c' b] Hlen Heq;
    simpl in *; try discriminate.
  - now split.
  - injection Heq as -> Heq. injection Hlen as Hlen.
    destruct (IH b Hlen Heq) as [-> ->]. now split.
Qed.
End Base36.

Example toString36_35 : toString36 35 = "z".
Proof. reflexivity. Qed.

Example toString36_now : toString36 1700000000000 = "loyw3v28".
Proof. reflexivity. Qed.

Example toISOString_epoch : toISOString 0 = "1970-01-01T00:00:00.000Z".
Proof. reflexivity. Qed.

Example toISOString_2023 :
  toISOString 1700000000123 = "2023-11-14T22:13:20.123Z".
Proof. reflexivity. Qed.

Example toISOString_leap_day :
  toISOString 951782400000 = "2000-02-29T00:00:00.000Z".
Proof. reflexivity. Qed.

(* ===================================================================== *)
(** ** Event ids *)
(* ===================================================================== *)

(** An id is the clock reading in base 36 followed by the random draw.
    For clock readings of eight base-36 digits (from 1972-06-25 to
    2059-05-25), two executions of ADD_EVENT, in any two worlds, give
    their new events the same id exactly when they observe the same clock
    reading and the same random draw. *)
Lemma event_ids_differ_with_readings {lc : LowerCase} (w1 w2 : World) (i1 i2 : Intent) :
  action i1 = "ADD_EVENT" ->
  action i2 = "ADD_EVENT" ->
  (78364164096 <= now w1 < 2821109907456)%N ->
  (78364164096 <= now w2 < 2821109907456)%N ->
  exists e1 e2 r1 r2 w1' w2',
    executeAction i1 w1 = (Returns r1, w1') /\
    events r1 = stored w1 ++ [e1] /\
    executeAction i2 w2 = (Returns r2, w2') /\
    events r2 = stored w2 ++ [e2] /\
    (ev_id e1 = ev_id e2 <-> now w1 = now w2 /\ draw w1 = draw w2).
Proof.
  intros Hact1 Hact2 Hnow1 Hnow2.
  destruct (add_event_creates w1 i1 Hact1) as [w1' [Hrun1 _]].
  destruct (add_event_creates w2 i2 Hact2) as [w2' [Hrun2 _]].
  do 4 eexists. exists w1', w2'.
  split; [exact Hrun1 |]. split; [reflexivity |].
  split; [exact Hrun2 |]. split; [reflexivity |].
  cbn [ev_id]. split.
  - intros Hid.
    apply append_inj in Hid.
    + destruct Hid as [Ht Hr]. split; [apply toString36_inj, Ht | exact Hr].
    + now rewrite !toString36_length_8.
  - intros [-> ->]. reflexivity.
Qed.

(** The world a deletion leaves: the one it found, with the events kept
    written to the calendar file. *)
Lemma delete_event_world {lc : LowerCase} (w : World) (intent : Intent) (q : string) :
  action intent = "DELETE_EVENT" ->
  query (data intent) = Some q ->
  let kept :=
    filter (fun event => negb (matches (toLowerCase q) event)) (stored w) in
  snd (executeAction intent w) = snd (fs_writeFile (ArrayText kept) w).
Proof.
  intros Hact Hq kept. enter_executeAction. rewrite Hact. simpl.
  unfold query_toLowerCase. rewrite Hq. reflexivity.
Qed.

(** C8, at the failing input.  Two additions that read the same
    millisecond from the clock and for which [Math.random()] gives the
    same value leave two different events with the same id in the
    collection.  And when the first of them is deleted in between, the
    second addition gives its event the id that the deleted event bore. *)
Theorem generateId_repeats_id {lc : LowerCase} :
  let standup_intent := add_intent "Standup" "2023-11-15" "09:30" "en" "Added." in
  let lunch_intent := add_intent "Lunch" "2023-11-16" "13:00" "en" "Added." in
  let e1 :=
    {| ev_id := "loyw3v28i";
       ev_title := Some "Standup";
       ev_date := Some "2023-11-15";
       ev_time := Some "09:30";
       ev_language := "en";
       ev_createdAt := "2023-11-14T22:13:20.000Z" |} in
  let e2 :=
    {| ev_id := "loyw3v28i";
       ev_title := Some "Lunch";
       ev_date := Some "2023-11-16";
       ev_time := Some "13:00";
       ev_language := "en";
       ev_createdAt := "2023-11-14T22:13:20.000Z" |} in
  let first := executeAction standup_intent stuck_world in
  let second := executeAction lunch_intent (snd first) in
  let deleted := executeAction (delete_intent "standup" "en" "Cancelled.") (snd first) in
  let again := executeAction lunch_intent (snd deleted) in
  fst first = Returns {| events := [e1]; message := "Added." |} /\
  fst second = Returns {| events := [e1; e2]; message := "Added." |} /\
  e1 <> e2 /\
  ev_id e1 = ev_id e2 /\
  fst deleted = Returns {| events := []; message := "Cancelled." |} /\
  fst again = Returns {| events := [e2]; message := "Added." |}.
Proof.
  intros standup_intent lunch_intent e1 e2 first second deleted again.
  assert (Hkept :
            filter (fun event => negb (matches (toLowerCase "standup") event)) [e1] = []).
  { cbn [filter]. unfold matches, e1. cbn [ev_time ev_title ev_date and_then].
    rewrite (toLowerCase_basic_latin "standup" eq_refl).
    rewrite (toLowerCase_basic_latin "Standup" eq_refl).
    reflexivity. }
  assert (Hfirst : stored (snd first) = [e1]) by reflexivity.
  assert (Hdeleted : snd deleted = snd (fs_writeFile (ArrayText []) (snd first))).
  { unfold deleted.
    rewrite (delete_event_world (snd first) (delete_intent "standup" "en" "Cancelled.")
               "standup" eq_refl eq_refl).
    rewrite Hfirst, Hkept. reflexivity. }
  split; [reflexivity |]. split; [reflexivity |].
  split; [discriminate |]. split; [reflexivity |].
  split.
  - destruct (delete_event_run (snd first) (delete_intent "standup" "en" "Cancelled.")
                "standup" eq_refl eq_refl) as [w' [Hrun _]].
    unfold deleted. rewrite Hrun. cbn [fst]. rewrite Hfirst.
    cbn [forallb]. rewrite Hkept.
    unfold matches, e1. cbn [ev_time ev_title ev_date and_then].
    rewrite (toLowerCase_basic_latin "standup" eq_refl).
    rewrite (toLowerCase_basic_latin "Standup" eq_refl).
    reflexivity.
  - unfold again. rewrite Hdeleted. reflexivity.
Qed.

(* ===================================================================== *)
(** ** The executor as a whole *)
(* ===================================================================== *)

Lemma read_only_run {lc : LowerCase} (w : World) (intent : Intent) :
  action intent <> "ADD_EVENT" ->
  action intent <> "DELETE_EVENT" ->
  executeAction intent w =
    (Returns {| events := stored w; message := response intent |}, w).
Proof.
  intros Hadd Hdel. enter_executeAction.
  apply String.eqb_neq in Hadd, Hdel. rewrite Hadd, Hdel.
  destruct (action intent =? "LIST_EVENTS"); reflexivity.
Qed.

Lemma delete_without_query_run {lc : LowerCase} (w : World) (intent : Intent) :
  action intent = "DELETE_EVENT" ->
  query (data intent) = None ->
  executeAction intent w =
    (Throws (TypeError "Cannot read properties of undefined (reading 'toLowerCase')"), w).
Proof.
  intros Hact Hq. enter_executeAction. rewrite Hact. simpl.
  unfold query_toLowerCase. rewrite Hq. reflexivity.
Qed.

(** X1. Whatever the intent, the collection [executeAction] returns is
    the collection the calendar file holds afterwards: a load that follows
    gives exactly the events of the answer. *)
Theorem executeAction_answer_is_stored {lc : LowerCase}
    (w w' : World) (intent : Intent) (r : ActionResult) :
  executeAction intent w = (Returns r, w') ->
  stored w' = events r /\
  loadEvents w' = (Returns (events r), w').
Proof.
  intros Hrun.
  assert (Hst : stored w' = events r).
  { destruct (String.eqb_spec (action intent) "ADD_EVENT") as [Hadd | Hadd].
    - destruct (add_event_creates w intent Hadd) as [w1 [Hrun1 [Hst _]]].
      rewrite Hrun1 in Hrun. injection Hrun as <- <-. exact Hst.
    - destruct (String.eqb_spec (action intent) "DELETE_EVENT") as [Hdel | Hdel].
      + destruct (query (data intent)) as [q |] eqn:Hq.
        * destruct (delete_event_run w intent q Hdel Hq) as [w1 [Hrun1 [Hst _]]].
          rewrite Hrun1 in Hrun. injection Hrun as <- <-. exact Hst.
        * rewrite (delete_without_query_run w intent Hdel Hq) in Hrun.
          discriminate Hrun.
      + rewrite (read_only_run w intent Hadd Hdel) in Hrun.
        injection Hrun as <- <-. reflexivity. }
  split; [exact Hst |]. rewrite loadEvents_returns, Hst. reflexivity.
Qed.

Lemma executeAction_answer_is_stored_witness :
  exists r w',
    executeAction (delete_intent "standup" "en" "Cancelled.")
      (world_with [standup; lunch]) = (Returns r, w') /\
    stored w' = events r /\
    loadEvents w' = (Returns (events r), w').
Proof.
  exists {| events := [lunch]; message := "Cancelled." |},
    (snd (executeAction (delete_intent "standup" "en" "Cancelled.")
            (world_with [standup; lunch]))).
  split; [reflexivity |].
  apply (executeAction_answer_is_stored (world_with [standup; lunch]) _
           (delete_intent "standup" "en" "Cancelled.")).
  reflexivity.
Defined.

Lemma filter_idempotent {A} (p : A -> bool) (l : list A) :
  filter p (filter p l) = filter p l.
Proof. apply forallb_filter_id, forallb_filter. Qed.

(** X3. Deleting is idempotent: a second DELETE_EVENT with the same
    query, run after the first, returns the same collection, and its
    message is the one for "not found". *)
Theorem delete_event_twice {lc : LowerCase} (w : World) (intent : Intent) (q : string) :
  action intent = "DELETE_EVENT" ->
  query (data intent) = Some q ->
  exists r1 w1 r2 w2,
    executeAction intent w = (Returns r1, w1) /\
    executeAction intent w1 = (Returns r2, w2) /\
    events r2 = events r1 /\
    stored w2 = stored w1 /\
    message r2 = if language intent =? "hi" then NOT_FOUND_HI else NOT_FOUND_EN.
Proof.
  intros Hact Hq.
  destruct (delete_event_run w intent q Hact Hq) as [w1 [Hrun1 [Hst1 _]]].
  destruct (delete_event_run w1 intent q Hact Hq) as [w2 [Hrun2 [Hst2 _]]].
  eexists. exists w1. eexists. exists w2.
  split; [exact Hrun1 |]. split; [exact Hrun2 |]. cbn [events message].
  rewrite Hst2, Hst1, filter_idempotent, forallb_filter. repeat split.
Qed.

Lemma delete_event_twice_witness :
  exists r1 w1 r2 w2,
    executeAction (delete_intent "Lunch" "hi" "ok") (world_with [standup; lunch])
      = (Returns r1, w1) /\
    executeAction (delete_intent "Lunch" "hi" "ok") w1 = (Returns r2, w2) /\
    events r2 = events r1 /\
    stored w2 = stored w1 /\
    message r2 = NOT_FOUND_HI.
Proof.
  exact (delete_event_twice (world_with [standup; lunch])
           (delete_intent "Lunch" "hi" "ok") "Lunch" eq_refl eq_refl).
Defined.

Lemma Substring_refl (s : string) : Substring s s.
Proof.
  exists EmptyString, EmptyString. simpl.
  induction s as [|c s IH]; simpl; [reflexivity | now rewrite <- IH].
Qed.

Lemma append_assoc (a b c : string) :
  ((a ++ b) ++ c)%string = (a ++ b ++ c)%string.
Proof. induction a as [|x a IH]; simpl; [reflexivity | now rewrite IH]. Qed.

Lemma Substring_trans (a b c : string) :
  Substring a b -> Substring b c -> Substring a c.
Proof.
  intros [p1 [s1 ->]] [p2 [s2 ->]].
  exists (p2 ++ p1)%string, (s1 ++ s2)%string.
  now rewrite !append_assoc.
Qed.

Lemma is_basic_latin_app (a b : string) :
  is_basic_latin (a ++ b) = is_basic_latin a && is_basic_latin b.
Proof.
  induction a as [|x a IH]; [reflexivity |].
  cbn [append is_basic_latin]. now rewrite IH, andb_assoc.
Qed.

Lemma lower_basic_latin_app (a b : string) :
  lower_basic_latin (a ++ b) = (lower_basic_latin a ++ lower_basic_latin b)%string.
Proof.
  induction a as [|x a IH]; [reflexivity |].
  cbn [append lower_basic_latin]. now rewrite IH.
Qed.

(** Within Basic Latin, a substring stays a substring in lower case. *)
Lemma Substring_toLowerCase {lc : LowerCase} (a b : string) :
  is_basic_latin b = true ->
  Substring a b -> Substring (toLowerCase a) (toLowerCase b).
Proof.
  intros Hb [p [s Heq]]. subst b.
  rewrite !is_basic_latin_app, !andb_true_iff in Hb.
  destruct Hb as [Hp [Ha Hs]].
  rewrite (toLowerCase_basic_latin a Ha), toLowerCase_basic_latin
    by (rewrite !is_basic_latin_app, Hp, Ha, Hs; reflexivity).
  exists (lower_basic_latin p), (lower_basic_latin s).
  now rewrite !lower_basic_latin_app.
Qed.

Lemma Matches_shorter_query {lc : LowerCase} (q q' : string) (e : Event) :
  Substring q' q -> Matches q e -> Matches q' e.
Proof.
  intros Hsub. unfold Matches, FieldHas.
  intros [[s [Hs [Hne H]]] | [[s [Hs [Hne H]]] | [s [Hs [Hne H]]]]];
    [left | right; left | right; right];
    exists s; repeat split; try assumption;
    exact (Substring_trans _ _ _ Hsub H).
Qed.

(** X4. An event that was just added is removed by a DELETE_EVENT whose
    query, in lower case, is a substring of its nonempty title in lower
    case (as the title itself always is): the event is not in the
    collection returned, and the message is the response of the
    deletion. *)
Theorem add_then_delete_by_title {lc : LowerCase}
    (w : World) (add del : Intent) (t q : string) :
  action add = "ADD_EVENT" ->
  title (data add) = Some t ->
  t <> EmptyString ->
  action del = "DELETE_EVENT" ->
  query (data del) = Some q ->
  SubstringCI q t ->
  exists e r1 w1 r2 w2,
    executeAction add w = (Returns r1, w1) /\
    events r1 = stored w ++ [e] /\
    executeAction del w1 = (Returns r2, w2) /\
    ~ In e (events r2) /\
    message r2 = response del.
Proof.
  intros Hadd Ht Hne Hdel Hq Hsub.
  destruct (add_event_creates w add Hadd) as [w1 [Hrun1 [Hst1 _]]].
  destruct (delete_event_run w1 del q Hdel Hq) as [w2 [Hrun2 _]].
  set (e := {| ev_id := (toString36 (now w) ++ draw w)%string;
               ev_title := title (data add);
               ev_date := date (data add);
               ev_time := time (data add);
               ev_language := language add;
               ev_createdAt := toISOString (clock w (S (clock_reads w))) |}) in *.
  assert (Hm : Matches (toLowerCase q) e).
  { right; left. exists t. repeat split; [exact Ht | exact Hne | exact Hsub]. }
  assert (He : In e (stored w1)).
  { rewrite Hst1. apply in_or_app. right. left. reflexivity. }
  exists e. eexists. exists w1. eexists. exists w2.
  split; [exact Hrun1 |]. split; [reflexivity |].
  split; [exact Hrun2 |]. cbn [events message]. split.
  - intros Hin. apply kept_In in Hin. destruct Hin as [_ Hno]. exact (Hno Hm).
  - destruct (forallb _ (stored w1)) eqn:Hall; [| reflexivity].
    elim (proj1 (forallb_kept _ _) Hall e He Hm).
Qed.

Lemma add_then_delete_by_title_witness :
  SubstringCI "meeting with JOHN" "Meeting with John" /\
  exists e r1 w1 r2 w2,
    executeAction (add_intent "Meeting with John" "2023-11-15" "15:00" "en" "Added.")
      (world_with [standup]) = (Returns r1, w1) /\
    events r1 = [standup] ++ [e] /\
    executeAction (delete_intent "meeting with JOHN" "en" "Cancelled.") w1
      = (Returns r2, w2) /\
    ~ In e (events r2) /\
    message r2 = "Cancelled.".
Proof.
  assert (Hsub : SubstringCI "meeting with JOHN" "Meeting with John")
    by exact (Substring_refl "meeting with john").
  split; [exact Hsub |].
  apply (add_then_delete_by_title (world_with [standup])
           (add_intent "Meeting with John" "2023-11-15" "15:00" "en" "Added.")
           (delete_intent "meeting with JOHN" "en" "Cancelled.")
           "Meeting with John" "meeting with JOHN");
    try reflexivity; [discriminate | exact Hsub].
Defined.

(** X5. A DELETE_EVENT with a query writes the calendar file even when
    nothing matches.  When the file is missing or is not JSON, the
    deletion finds nothing, answers "not found", and leaves a file that
    holds the empty array: what the file held is gone. *)
Theorem delete_event_replaces_unreadable_file {lc : LowerCase}
    (w : World) (intent : Intent) (q : string) :
  action intent = "DELETE_EVENT" ->
  query (data intent) = Some q ->
  calendar_file w = None \/ (exists text, calendar_file w = Some (Malformed text)) ->
  exists r w',
    executeAction intent w = (Returns r, w') /\
    events r = [] /\
    message r = (if language intent =? "hi" then NOT_FOUND_HI else NOT_FOUND_EN) /\
    calendar_file w' = Some (ArrayText []) /\
    written w' = ArrayText [] :: written w.
Proof.
  intros Hact Hq Hfile.
  assert (Hst : stored w = []).
  { unfold stored. destruct Hfile as [-> | [text ->]]; reflexivity. }
  enter_executeAction. rewrite Hact, Hst. cbn.
  unfold query_toLowerCase. rewrite Hq. cbn.
  eexists. eexists. split; [reflexivity |]. repeat split.
Qed.

Lemma delete_event_replaces_unreadable_file_witness :
  exists r w',
    executeAction (delete_intent "lunch" "en" "Cancelled.") corrupt_world
      = (Returns r, w') /\
    events r = [] /\
    message r = NOT_FOUND_EN /\
    calendar_file w' = Some (ArrayText []) /\
    written w' = ArrayText [] :: written corrupt_world.
Proof.
  apply (delete_event_replaces_unreadable_file corrupt_world
           (delete_intent "lunch" "en" "Cancelled.") "lunch");
    try reflexivity.
  right. now exists "[{ id: ".
Defined.

(** X6. A less specific query removes at least as much.  When the query
    [q2] of one DELETE_EVENT, in lower case, is a substring of the query
    [q1] of another, in lower case (for a query [q1] in Basic Latin: when
    [q2] is a substring of [q1]), every event the deletion by [q2] keeps
    is also kept by the deletion by [q1], run on the same collection. *)
Theorem delete_event_substring_query {lc : LowerCase}
    (w : World) (d1 d2 : Intent) (q1 q2 : string) :
  action d1 = "DELETE_EVENT" ->
  action d2 = "DELETE_EVENT" ->
  query (data d1) = Some q1 ->
  query (data d2) = Some q2 ->
  Substring (toLowerCase q2) (toLowerCase q1) \/
  (is_basic_latin q1 = true /\ Substring q2 q1) ->
  exists r1 w1 r2 w2,
    executeAction d1 w = (Returns r1, w1) /\
    executeAction d2 w = (Returns r2, w2) /\
    forall e, In e (events r2) -> In e (events r1).
Proof.
  intros Ha1 Ha2 Hq1 Hq2 Hsub.
  assert (Hlow : Substring (toLowerCase q2) (toLowerCase q1)).
  { destruct Hsub as [Hlow | [Hlatin Hsub]]; [exact Hlow |].
    exact (Substring_toLowerCase q2 q1 Hlatin Hsub). }
  destruct (delete_event_run w d1 q1 Ha1 Hq1) as [w1 [Hrun1 _]].
  destruct (delete_event_run w d2 q2 Ha2 Hq2) as [w2 [Hrun2 _]].
  eexists. exists w1. eexists. exists w2.
  split; [exact Hrun1 |]. split; [exact Hrun2 |]. cbn [events].
  intros e He. apply kept_In in He. destruct He as [He Hno].
  apply kept_In. split; [exact He |]. intros Hm. apply Hno.
  exact (Matches_shorter_query _ _ e Hlow Hm).
Qed.

Lemma delete_event_substring_query_witness :
  (is_basic_latin "Stand" = true /\ Substring "tan" "Stand") /\
  exists r1 w1 r2 w2,
    executeAction (delete_intent "Stand" "en" "ok") (world_with [standup; lunch])
      = (Returns r1, w1) /\
    executeAction (delete_intent "tan" "en" "ok") (world_with [standup; lunch])
      = (Returns r2, w2) /\
    forall e, In e (events r2) -> In e (events r1).
Proof.
  assert (Hsub : is_basic_latin "Stand" = true /\ Substring "tan" "Stand")
    by (split; [reflexivity | now exists "S", "d"]).
  split; [exact Hsub |].
  exact (delete_event_substring_query (world_with [standup; lunch])
           (delete_intent "Stand" "en" "ok") (delete_intent "tan" "en" "ok")
           "Stand" "tan" eq_refl eq_refl eq_refl eq_refl (or_intror Hsub)).
Defined.

(* ===================================================================== *)
(** ** Facts about the prompt, the intent and the speech *)
(* ===================================================================== *)

Section PromptFacts.

Lemma append_empty_r (s : string) : (s ++ EmptyString)%string = s.
Proof. induction s as [|c s IH]; simpl; [reflexivity | now rewrite IH]. Qed.

Lemma lacks_app (c : ascii) (a b : string) :
  lacks c (a ++ b) = lacks c a && lacks c b.
Proof.
  induction a as [|x a IH]; simpl; [reflexivity |].
  now rewrite IH, andb_assoc.
Qed.

Lemma before_app (c : ascii) (a b : string) :
  lacks c a = true -> before c (a ++ b) = (a ++ before c b)%string.
Proof.
  induction a as [|x a IH]; simpl; [reflexivity |].
  rewrite andb_true_iff, negb_true_iff. intros [Hx Ha].
  now rewrite Hx, IH.
Qed.

Lemma digit_is_not_T (k : N) :
  (k < 10)%N -> Ascii.eqb (ascii_of_N (48 + k)) "T" = false.
Proof.
  intros Hk. apply Ascii.eqb_neq. intros Heq.
  apply (f_equal N_of_ascii) in Heq.
  rewrite N_ascii_embedding in Heq by lia.
  change (N_of_ascii "T") with 84%N in Heq. lia.
Qed.

Lemma fixed_dec_lacks_T (width : nat) (n : N) :
  lacks "T" (fixed_dec width n) = true.
Proof.
  revert n. induction width as [|width IH]; intros n; [reflexivity |].
  cbn [fixed_dec]. rewrite lacks_app, IH. cbn [lacks].
  rewrite digit_is_not_T; [reflexivity |].
  apply N.mod_lt. discriminate.
Qed.

(** The part of the ISO form before [T] is the date. *)
Lemma before_T_toISOString (ms : N) :
  before "T" (toISOString ms) = utc_date ms.
Proof.
  unfold toISOString, utc_date.
  destruct (civil_from_days (ms / 86400000)) as [[y m] d].
  set (year := if (y <=? 9999)%N then fixed_dec 4 y
               else ("+" ++ fixed_dec 6 y)%string).
  assert (Hyear : lacks "T" year = true).
  { unfold year. destruct (y <=? 9999)%N; [apply fixed_dec_lacks_T |].
    change ("+" ++ fixed_dec 6 y)%string with (String "+" (fixed_dec 6 y)).
    cbn [lacks]. rewrite fixed_dec_lacks_T. reflexivity. }
  rewrite (before_app _ year _ Hyear). f_equal.
  cbn [append before Ascii.eqb Bool.eqb]. f_equal.
  rewrite (before_app _ _ _ (fixed_dec_lacks_T 2 m)). f_equal.
  cbn [append before Ascii.eqb Bool.eqb]. f_equal.
  rewrite (before_app _ _ _ (fixed_dec_lacks_T 2 d)).
  cbn [append before Ascii.eqb Bool.eqb]. apply append_empty_r.
Qed.

Lemma getSystemPrompt_run (svc : Services) (w : World) :
  getSystemPrompt svc w = (Returns (prompt_in svc w), after_readings 4 w).
Proof.
  unfold getSystemPrompt, getCurrentDate, tomorrow, bind, Date_now, ret, prompt_in.
  cbn [calendar_file written clock clock_reads random random_draws
       cd_date cd_fullDate cd_dayOfWeek now].
  rewrite !before_T_toISOString. reflexivity.
Qed.

Lemma processIntent_run (svc : Services) (transcription : string) (w : World) :
  processIntent svc transcription w =
    (reply_intent (messages_create svc (prompt_in svc w) transcription),
     after_readings 4 w).
Proof.
  unfold processIntent, try_catch, bind. rewrite getSystemPrompt_run.
  unfold settle, reply_intent.
  destruct (messages_create svc (prompt_in svc w) transcription)
    as [[| [text | intent] rest] | e]; reflexivity.
Qed.

Lemma generateSpeech_run (svc : Services) (text language : string) (w : World) :
  generateSpeech svc text language w = (speech_audio (speak_request svc text), w).
Proof.
  unfold generateSpeech, try_catch, bind, settle, speech_audio.
  destruct (speak_request svc text) as [[chunks |] | e]; reflexivity.
Qed.

Lemma stored_after_readings (n : nat) (w : World) :
  stored (after_readings n w) = stored w.
Proof. reflexivity. Qed.

End PromptFacts.

Lemma utc_date_of_day (ms : N) :
  utc_date ms = utc_date (ms / 86400000 * 86400000).
Proof.
  unfold utc_date. now rewrite N.div_mul by discriminate.
Qed.

(** X7. When the four clock readings taken while the system prompt is
    built fall on the same UTC day, the prompt gives the date of that day
    as today and the date of the next day for each of its three mentions
    of tomorrow. *)
Theorem getSystemPrompt_dates (svc : Services) (w : World) (day : N) :
  (forall k, (k < 4)%nat -> (clock w (k + clock_reads w) / 86400000 = day)%N) ->
  exists p,
    getSystemPrompt svc w = (Returns p, after_readings 4 w) /\
    sp_today p = utc_date (day * 86400000) /\
    sp_tomorrow p = utc_date ((day + 1) * 86400000) /\
    sp_tomorrow_example_en p = utc_date ((day + 1) * 86400000) /\
    sp_tomorrow_example_hi p = utc_date ((day + 1) * 86400000).
Proof.
  intros Hday. exists (prompt_in svc w).
  split; [apply getSystemPrompt_run |].
  assert (Hnext : forall ms, (ms / 86400000 = day)%N ->
                    utc_date (ms + 86400000) = utc_date ((day + 1) * 86400000)).
  { intros ms Hms. rewrite (utc_date_of_day (ms + 86400000)).
    replace (ms + 86400000)%N with (ms + 1 * 86400000)%N by lia.
    rewrite N.div_add by discriminate. now rewrite Hms. }
  cbn [prompt_in sp_today sp_tomorrow sp_tomorrow_example_en sp_tomorrow_example_hi].
  split; [| split; [| split]].
  - rewrite utc_date_of_day.
    pose proof (Hday 0%nat ltac:(lia)) as H0. cbn [Nat.add] in H0.
    now rewrite H0.
  - apply Hnext. exact (Hday 1%nat ltac:(lia)).
  - apply Hnext. exact (Hday 2%nat ltac:(lia)).
  - apply Hnext. exact (Hday 3%nat ltac:(lia)).
Qed.

Lemma getSystemPrompt_dates_witness :
  exists p,
    getSystemPrompt (fixed_services (Returns []) (failed "x") (failed "x") (Returns None))
      (world_with []) = (Returns p, after_readings 4 (world_with [])) /\
    sp_today p = "2023-11-14" /\
    sp_tomorrow p = "2023-11-15" /\
    sp_tomorrow_example_en p = "2023-11-15" /\
    sp_tomorrow_example_hi p = "2023-11-15".
Proof.
  apply (getSystemPrompt_dates
           (fixed_services (Returns []) (failed "x") (failed "x") (Returns None))
           (world_with []) 19675%N).
  intros k Hk.
  destruct k as [|[|[|[|k]]]]; [reflexivity | reflexivity | reflexivity | reflexivity | lia].
Defined.

(* ===================================================================== *)
(** ** The endpoints *)
(* ===================================================================== *)

(** [POST /api/text] without text, or with the empty text, answers 400
    at once: the world is as before, whatever the services are. *)
Lemma post_api_text_without_text {lc : LowerCase} (svc : Services) (text : option string) (w : World) :
  text = None \/ text = Some EmptyString ->
  post_api_text svc text w =
    (Returns {| status := 400; payload := Failure "No text provided" None |}, w).
Proof. intros [-> | ->]; reflexivity. Qed.

(** X8. When the language model fails, answers without content, or
    answers with a text that is not JSON, [POST /api/text] answers 500
    with that exception as the detail, and the calendar file is not
    touched: only four clock readings were taken. *)
Theorem post_api_text_unresolved_intent {lc : LowerCase}
    (svc : Services) (text : string) (w : World) (e : Exn) :
  text <> EmptyString ->
  reply_intent (messages_create svc (prompt_in svc w) text) = Throws e ->
  post_api_text svc (Some text) w =
    (Returns {| status := 500;
                payload := Failure "Failed to process text input" (Some e) |},
     after_readings 4 w) /\
  calendar_file (after_readings 4 w) = calendar_file w /\
  written (after_readings 4 w) = written w.
Proof.
  intros Hne Hreply. split; [| split; reflexivity].
  destruct text as [|c text]; [now elim Hne |].
  unfold post_api_text, try_catch, bind.
  rewrite processIntent_run, Hreply. reflexivity.
Qed.

Lemma post_api_text_unresolved_intent_witness :
  post_api_text
    (fixed_services (Returns [NotJson "Sure! Here is the JSON you asked for:"])
       (failed "x") (failed "x") (Returns (Some ["abc"])))
    (Some "add lunch tomorrow") (world_with [standup]) =
    (Returns {| status := 500;
                payload := Failure "Failed to process text input" (Some SyntaxError) |},
     after_readings 4 (world_with [standup])).
Proof.
  apply (post_api_text_unresolved_intent
           (fixed_services (Returns [NotJson "Sure! Here is the JSON you asked for:"])
              (failed "x") (failed "x") (Returns (Some ["abc"])))
           "add lunch tomorrow" (world_with [standup]) SyntaxError);
    [discriminate | reflexivity].
Defined.

(** X2. A DELETE_EVENT whose data carries no query deletes nothing.
    [executeAction] throws the TypeError of [query.toLowerCase()] straight
    after loading, with the world as it was and nothing written; and
    [POST /api/text], when the model resolves the text to such an intent,
    answers 500 with that exception, the calendar file untouched, whatever
    the speech service would give. *)
Theorem delete_event_without_query_throws {lc : LowerCase}
    (svc : Services) (text : string) (w : World) (intent : Intent) :
  action intent = "DELETE_EVENT" ->
  query (data intent) = None ->
  executeAction intent w =
    (Throws (TypeError "Cannot read properties of undefined (reading 'toLowerCase')"), w) /\
  (text <> EmptyString ->
   reply_intent (messages_create svc (prompt_in svc w) text) = Returns intent ->
   post_api_text svc (Some text) w =
     (Returns {| status := 500;
                 payload :=
                   Failure "Failed to process text input"
                     (Some (TypeError "Cannot read properties of undefined (reading 'toLowerCase')")) |},
      after_readings 4 w) /\
   calendar_file (after_readings 4 w) = calendar_file w /\
   written (after_readings 4 w) = written w).
Proof.
  intros Hact Hq. split; [exact (delete_without_query_run w intent Hact Hq) |].
  intros Hne Hreply. split; [| split; reflexivity].
  destruct text as [|c text]; [now elim Hne |].
  unfold post_api_text, try_catch, bind.
  rewrite processIntent_run, Hreply.
  rewrite (delete_without_query_run (after_readings 4 w) intent Hact Hq).
  reflexivity.
Qed.

Lemma delete_event_without_query_throws_witness :
  let no_query :=
    {| action := "DELETE_EVENT"; language := "en";
       data := {| title := None; date := None; time := None; query := None |};
       response := "I'll cancel that." |} in
  let svc :=
    fixed_services (Returns [IntentJson no_query]) (failed "x") (failed "x")
      (Returns (Some ["abc"])) in
  executeAction no_query (world_with [standup]) =
    (Throws (TypeError "Cannot read properties of undefined (reading 'toLowerCase')"),
     world_with [standup]) /\
  post_api_text svc (Some "cancel it") (world_with [standup]) =
    (Returns {| status := 500;
                payload :=
                  Failure "Failed to process text input"
                    (Some (TypeError "Cannot read properties of undefined (reading 'toLowerCase')")) |},
     after_readings 4 (world_with [standup])).
Proof.
  intros no_query svc.
  destruct (delete_event_without_query_throws svc "cancel it" (world_with [standup])
              no_query eq_refl eq_refl) as [Hthrow Hpost].
  split; [exact Hthrow |].
  exact (proj1 (Hpost ltac:(discriminate) eq_refl)).
Defined.

(** X9. The action is not undone when the synthesis fails after it.
    When the intent is an ADD_EVENT and the speech service then fails or
    gives no stream, [POST /api/text] answers 500, yet the new event is in
    the calendar file. *)
Theorem post_api_text_speech_fails_after_add {lc : LowerCase}
    (svc : Services) (text : string) (w : World) (intent : Intent) (e : Exn) :
  text <> EmptyString ->
  reply_intent (messages_create svc (prompt_in svc w) text) = Returns intent ->
  action intent = "ADD_EVENT" ->
  speech_audio (speak_request svc (response intent)) = Throws e ->
  exists newEvent w',
    post_api_text svc (Some text) w =
      (Returns {| status := 500;
                  payload := Failure "Failed to process text input" (Some e) |},
       w') /\
    stored w' = stored w ++ [newEvent] /\
    ev_title newEvent = title (data intent) /\
    ev_date newEvent = date (data intent) /\
    ev_time newEvent = time (data intent).
Proof.
  intros Hne Hreply Hact Hspeech.
  destruct (add_event_creates (after_readings 4 w) intent Hact)
    as [w' [Hrun [Hst _]]].
  eexists. exists w'. split; [| split; [exact Hst | repeat split]].
  destruct text as [|c text]; [now elim Hne |].
  unfold post_api_text, try_catch, bind.
  rewrite processIntent_run, Hreply, Hrun, generateSpeech_run.
  cbn [message]. rewrite Hspeech. reflexivity.
Qed.

Lemma post_api_text_speech_fails_after_add_witness :
  exists newEvent w',
    post_api_text
      (fixed_services
         (Returns [IntentJson (add_intent "Lunch" "2023-11-16" "13:00" "en" "Added.")])
         (failed "x") (failed "x") (Returns None))
      (Some "add lunch on thursday at one") (world_with [standup]) =
      (Returns {| status := 500;
                  payload := Failure "Failed to process text input"
                               (Some (Error NO_AUDIO_STREAM)) |},
       w') /\
    stored w' = [standup] ++ [newEvent] /\
    ev_title newEvent = Some "Lunch" /\
    ev_date newEvent = Some "2023-11-16" /\
    ev_time newEvent = Some "13:00".
Proof.
  apply (post_api_text_speech_fails_after_add
           (fixed_services
              (Returns [IntentJson (add_intent "Lunch" "2023-11-16" "13:00" "en" "Added.")])
              (failed "x") (failed "x") (Returns None))
           "add lunch on thursday at one" (world_with [standup])
           (add_intent "Lunch" "2023-11-16" "13:00" "en" "Added.")
           (Error NO_AUDIO_STREAM));
    [discriminate | reflexivity | reflexivity | reflexivity].
Defined.

(** X10. When the intent is resolved, the action returns and the
    synthesis gives audio, [POST /api/text] answers 200 with the text as
    transcription, the message and the events of the action, the audio
    and the intent; the events of the answer are the collection the
    calendar file holds after the request. *)
Theorem post_api_text_answer {lc : LowerCase}
    (svc : Services) (text : string) (w w' : World) (intent : Intent)
    (r : ActionResult) (audio : string) :
  text <> EmptyString ->
  reply_intent (messages_create svc (prompt_in svc w) text) = Returns intent ->
  executeAction intent (after_readings 4 w) = (Returns r, w') ->
  speech_audio (speak_request svc (message r)) = Returns audio ->
  post_api_text svc (Some text) w =
    (Returns {| status := 200;
                payload := Answer text (message r) audio (events r) intent |},
     w') /\
  stored w' = events r.
Proof.
  intros Hne Hreply Hrun Hspeech. split.
  - destruct text as [|c text]; [now elim Hne |].
    unfold post_api_text, try_catch, bind.
    rewrite processIntent_run, Hreply, Hrun, generateSpeech_run, Hspeech.
    reflexivity.
  - destruct (String.eqb_spec (action intent) "ADD_EVENT") as [Hadd | Hadd].
    + destruct (add_event_creates (after_readings 4 w) intent Hadd)
        as [w1 [Hrun1 [Hst _]]].
      rewrite Hrun1 in Hrun. injection Hrun as <- <-. exact Hst.
    + destruct (String.eqb_spec (action intent) "DELETE_EVENT") as [Hdel | Hdel].
      * destruct (query (data intent)) as [q |] eqn:Hq.
        -- destruct (delete_event_run (after_readings 4 w) intent q Hdel Hq)
             as [w1 [Hrun1 [Hst _]]].
           rewrite Hrun1 in Hrun. injection Hrun as <- <-. exact Hst.
        -- rewrite (delete_without_query_run _ intent Hdel Hq) in Hrun.
           discriminate Hrun.
      * rewrite (read_only_run _ intent Hadd Hdel) in Hrun.
        injection Hrun as <- <-. reflexivity.
Qed.

Lemma post_api_text_answer_witness :
  post_api_text
    (fixed_services
       (Returns [IntentJson (delete_intent "standup" "en" "Cancelled.")])
       (failed "x") (failed "x") (Returns (Some ["ID3"; "!"])))
    (Some "cancel the standup") (world_with [standup; lunch]) =
    (Returns {| status := 200;
                payload := Answer "cancel the standup" "Cancelled." "SUQzIQ==" [lunch]
                             (delete_intent "standup" "en" "Cancelled.") |},
     snd (executeAction (delete_intent "standup" "en" "Cancelled.")
            (after_readings 4 (world_with [standup; lunch])))) /\
  stored (snd (executeAction (delete_intent "standup" "en" "Cancelled.")
                 (after_readings 4 (world_with [standup; lunch])))) = [lunch].
Proof.
  apply (post_api_text_answer
           (fixed_services
              (Returns [IntentJson (delete_intent "standup" "en" "Cancelled.")])
              (failed "x") (failed "x") (Returns (Some ["ID3"; "!"])))
           "cancel the standup" (world_with [standup; lunch]) _
           (delete_intent "standup" "en" "Cancelled.")
           {| events := [lunch]; message := "Cancelled." |} "SUQzIQ==");
    [discriminate | reflexivity | reflexivity | reflexivity].
Defined.

(** X11. [GET /api/events] always answers 200 with the stored
    collection, the empty one when the calendar file is missing or is not
    JSON, and leaves the world as it was: its failure answer is never
    given. *)
Theorem get_api_events_always_answers (w : World) :
  get_api_events w =
    (Returns {| status := 200; payload := EventList (stored w) |}, w) /\
  (calendar_file w = None \/ (exists text, calendar_file w = Some (Malformed text)) ->
   get_api_events w = (Returns {| status := 200; payload := EventList [] |}, w)).
Proof.
  assert (Hrun : get_api_events w =
                 (Returns {| status := 200; payload := EventList (stored w) |}, w)).
  { unfold get_api_events, try_catch, bind. now rewrite loadEvents_returns. }
  split; [exact Hrun |].
  intros Hfile. rewrite Hrun. unfold stored.
  destruct Hfile as [-> | [text ->]]; reflexivity.
Qed.

Lemma get_api_events_always_answers_witness :
  get_api_events corrupt_world =
    (Returns {| status := 200; payload := EventList [] |}, corrupt_world).
Proof.
  apply (proj2 (get_api_events_always_answers corrupt_world)).
  right. now exists "[{ id: ".
Defined.

(** X12. [POST /api/voice] answers 400 without an uploaded file, and 500
    when both recognition attempts report an error; in both cases the
    world is as before: no clock reading, no write, and the answer does
    not depend on the language model or the synthesis. *)
Theorem post_api_voice_stops_early {lc : LowerCase} (svc : Services) (w : World) :
  post_api_voice svc None w =
    (Returns {| status := 400; payload := Failure "No audio file provided" None |}, w) /\
  (forall buffer,
     error (transcribeFile svc buffer "en") <> None ->
     error (transcribeFile svc buffer "hi") <> None ->
     post_api_voice svc (Some buffer) w =
       (Returns {| status := 500;
                   payload := Failure "Failed to process voice input"
                                (Some (Error BOTH_FAILED)) |}, w)).
Proof.
  split; [reflexivity |].
  intros buffer Hen Hhi.
  unfold post_api_voice, try_catch, bind, settle, transcribe.
  destruct (error (transcribeFile svc buffer "en")); [| now elim Hen].
  destruct (error (transcribeFile svc buffer "hi")); [| now elim Hhi].
  reflexivity.
Qed.

Lemma post_api_voice_stops_early_witness :
  post_api_voice
    (fixed_services (Returns [IntentJson (list_intent "en" "Here:")])
       (failed "timeout") (failed "timeout") (Returns (Some ["abc"])))
    (Some "RIFF") (world_with [standup]) =
    (Returns {| status := 500;
                payload := Failure "Failed to process voice input"
                             (Some (Error BOTH_FAILED)) |},
     world_with [standup]).
Proof.
  apply (proj2 (post_api_voice_stops_early
                  (fixed_services (Returns [IntentJson (list_intent "en" "Here:")])
                     (failed "timeout") (failed "timeout") (Returns (Some ["abc"])))
                  (world_with [standup])) "RIFF");
    discriminate.
Defined.

(** X13. Once a nonempty transcript is selected, [POST /api/voice]
    does what [POST /api/text] does on that transcript: the same world
    afterwards and the same answer, but for the summary of a failure.  The
    language tag of the selection plays no part. *)
Theorem post_api_voice_as_text {lc : LowerCase}
    (svc : Services) (buffer : string) (w : World) (selected : Transcription) :
  transcribe (transcribeFile svc buffer "en") (transcribeFile svc buffer "hi")
    = Returns selected ->
  transcribedText selected <> EmptyString ->
  exists r w',
    post_api_text svc (Some (transcribedText selected)) w = (Returns r, w') /\
    post_api_voice svc (Some buffer) w = (Returns (as_voice_response r), w').
Proof.
  intros Hsel Hne.
  destruct (transcribedText selected) as [|c text] eqn:Htext; [now elim Hne |].
  unfold post_api_voice, post_api_text, try_catch, bind, settle.
  rewrite Hsel, Htext, processIntent_run.
  destruct (reply_intent _) as [intent | e];
    [| eexists; eexists; split; reflexivity].
  destruct (executeAction intent (after_readings 4 w)) as [[r | e] w1];
    [| eexists; eexists; split; reflexivity].
  rewrite generateSpeech_run.
  destruct (speech_audio _) as [audio | e];
    eexists; eexists; split; reflexivity.
Qed.

Lemma post_api_voice_as_text_witness :
  exists r w',
    post_api_text
      (fixed_services (Returns [IntentJson (list_intent "en" "Here:")])
         (heard "what is on today" 0.875) (heard "vat is on tude" 0.5)
         (Returns (Some ["abc"])))
      (Some "what is on today") (world_with [standup]) = (Returns r, w') /\
    post_api_voice
      (fixed_services (Returns [IntentJson (list_intent "en" "Here:")])
         (heard "what is on today" 0.875) (heard "vat is on tude" 0.5)
         (Returns (Some ["abc"])))
      (Some "RIFF") (world_with [standup]) = (Returns (as_voice_response r), w').
Proof.
  apply (post_api_voice_as_text
           (fixed_services (Returns [IntentJson (list_intent "en" "Here:")])
              (heard "what is on today" 0.875) (heard "vat is on tude" 0.5)
              (Returns (Some ["abc"])))
           "RIFF" (world_with [standup])
           {| transcribedText := "what is on today"; detectedLanguage := "en" |});
    [reflexivity | discriminate].
Defined.

(* ===================================================================== *)
(** ** The browser's copy *)
(* ===================================================================== *)

Lemma App_save_then_get (es : list Event) (b : Browser) :
  storage_full b = false ->
  App.getEventsFromStorage (App.saveEventsToStorage es b) = es.
Proof. intros Hfull. unfold App.saveEventsToStorage. now rewrite Hfull. Qed.

Lemma App_save_when_full (es : list Event) (b : Browser) :
  storage_full b = true -> App.saveEventsToStorage es b = b.
Proof. intros Hfull. unfold App.saveEventsToStorage. now rewrite Hfull. Qed.

(** The browser guards what the server does not.  An ADD_EVENT whose
    title is missing or empty, and a DELETE_EVENT whose query is missing
    or empty, only redisplay the stored collection: the storage is as
    before and no clock reading or random draw is taken. *)
Lemma handleCalendarAction_guards {lc : LowerCase} (intent : Intent) (b : Browser) :
  (action intent = "ADD_EVENT" /\ blank (title (data intent))) \/
  (action intent = "DELETE_EVENT" /\ blank (query (data intent))) ->
  App.handleCalendarAction intent b =
    App.displayEvents (App.getEventsFromStorage b) b.
Proof.
  unfold App.handleCalendarAction, blank.
  intros [[-> [-> | ->]] | [-> [-> | ->]]]; reflexivity.
Qed.

(** X14. An ADD_EVENT without title sets the two copies apart.  If the
    browser's storage and the calendar file hold the same collection and
    the title of the intent is missing or empty, the server appends an
    event all the same, while the browser only redisplays what it has: its
    storage is as before, and no clock reading or random draw is taken. *)
Theorem add_event_without_title_diverges {lc : LowerCase}
    (intent : Intent) (w : World) (b : Browser) :
  action intent = "ADD_EVENT" ->
  blank (title (data intent)) ->
  App.getEventsFromStorage b = stored w ->
  exists e r w',
    executeAction intent w = (Returns r, w') /\
    events r = stored w ++ [e] /\
    stored w' = stored w ++ [e] /\
    blank (ev_title e) /\
    App.handleCalendarAction intent b = App.displayEvents (stored w) b /\
    App.getEventsFromStorage (App.handleCalendarAction intent b) = stored w.
Proof.
  intros Hact Hblank Hsync.
  destruct (add_event_creates w intent Hact) as [w' [Hrun [Hst _]]].
  eexists. eexists. exists w'.
  split; [exact Hrun |]. split; [reflexivity |]. split; [exact Hst |].
  split; [exact Hblank |].
  rewrite (handleCalendarAction_guards intent b (or_introl (conj Hact Hblank))).
  rewrite Hsync. split; [reflexivity | exact Hsync].
Qed.

Lemma add_event_without_title_diverges_witness :
  let untitled :=
    {| action := "ADD_EVENT"; language := "en";
       data := {| title := Some EmptyString; date := Some "2023-11-16";
                  time := Some "13:00"; query := None |};
       response := "Added." |} in
  exists e r w',
    executeAction untitled (world_with [standup]) = (Returns r, w') /\
    events r = [standup] ++ [e] /\
    stored w' = [standup] ++ [e] /\
    blank (ev_title e) /\
    App.handleCalendarAction untitled (page_with [standup] false)
      = App.displayEvents [standup] (page_with [standup] false) /\
    App.getEventsFromStorage
      (App.handleCalendarAction untitled (page_with [standup] false)) = [standup].
Proof.
  intros untitled.
  apply (add_event_without_title_diverges untitled (world_with [standup])
           (page_with [standup] false));
    [reflexivity | right; reflexivity | reflexivity].
Defined.

Lemma App_delete_run {lc : LowerCase} (intent : Intent) (c : ascii) (q : string) (b : Browser) :
  action intent = "DELETE_EVENT" ->
  query (data intent) = Some (String c q) ->
  App.handleCalendarAction intent b =
    let kept :=
      filter (fun event => negb (matches (toLowerCase (String c q)) event))
        (App.getEventsFromStorage b) in
    App.displayEvents kept (App.saveEventsToStorage kept b).
Proof.
  intros Hact Hq. unfold App.handleCalendarAction. rewrite Hact, Hq.
  reflexivity.
Qed.

Lemma App_add_run {lc : LowerCase} (intent : Intent) (c : ascii) (t : string) (b : Browser) :
  action intent = "ADD_EVENT" ->
  title (data intent) = Some (String c t) ->
  let newEvent :=
    {| ev_id := (toString36 (tab_clock b (tab_clock_reads b))
                   ++ tab_random b (tab_random_draws b))%string;
       ev_title := Some (String c t);
       ev_date := date (data intent);
       ev_time := time (data intent);
       ev_language := language intent;
       ev_createdAt := toISOString (tab_clock b (S (tab_clock_reads b))) |} in
  let events := App.getEventsFromStorage b ++ [newEvent] in
  storage_item (App.handleCalendarAction intent b) =
    (if storage_full b then storage_item b else Some (ArrayText events)) /\
  displayed (App.handleCalendarAction intent b) = events :: displayed b.
Proof.
  intros Hact Ht. unfold App.handleCalendarAction. rewrite Hact, Ht.
  cbn [String.eqb Ascii.eqb Bool.eqb App.Date_now App.Math_random_toString36_substr2
       App.addEventToStorage App.saveEventsToStorage App.displayEvents
       App.getEventsFromStorage storage_item storage_full displayed
       tab_clock tab_clock_reads tab_random tab_random_draws].
  destruct (storage_full b); split; reflexivity.
Qed.

(** X15. On a DELETE_EVENT with a nonempty query the browser and the
    server do the same: if the browser's storage and the calendar file
    hold the same collection before, they hold the same collection after
    (the one the server returns), and that collection is displayed. *)
Theorem delete_event_browser_follows_server {lc : LowerCase}
    (intent : Intent) (q : string) (w : World) (b : Browser) :
  action intent = "DELETE_EVENT" ->
  query (data intent) = Some q ->
  q <> EmptyString ->
  storage_full b = false ->
  App.getEventsFromStorage b = stored w ->
  exists r w',
    executeAction intent w = (Returns r, w') /\
    stored w' = events r /\
    App.getEventsFromStorage (App.handleCalendarAction intent b) = events r /\
    displayed (App.handleCalendarAction intent b) = events r :: displayed b.
Proof.
  intros Hact Hq Hne Hfull Hsync.
  destruct (delete_event_run w intent q Hact Hq) as [w' [Hrun [Hst _]]].
  eexists. exists w'. split; [exact Hrun |]. cbn [events].
  split; [exact Hst |].
  destruct q as [|c q]; [now elim Hne |].
  rewrite (App_delete_run intent c q b Hact Hq). cbv zeta. rewrite Hsync.
  split.
  - change (App.getEventsFromStorage (App.displayEvents ?es ?b'))
      with (App.getEventsFromStorage b').
    apply App_save_then_get, Hfull.
  - unfold App.saveEventsToStorage. rewrite Hfull. reflexivity.
Qed.

Lemma delete_event_browser_follows_server_witness :
  exists r w',
    executeAction (delete_intent "Lunch" "en" "Cancelled.") (world_with [standup; lunch])
      = (Returns r, w') /\
    stored w' = events r /\
    App.getEventsFromStorage
      (App.handleCalendarAction (delete_intent "Lunch" "en" "Cancelled.")
         (page_with [standup; lunch] false)) = events r /\
    displayed
      (App.handleCalendarAction (delete_intent "Lunch" "en" "Cancelled.")
         (page_with [standup; lunch] false)) = events r :: [].
Proof.
  apply (delete_event_browser_follows_server
           (delete_intent "Lunch" "en" "Cancelled.") "Lunch"
           (world_with [standup; lunch]) (page_with [standup; lunch] false));
    [reflexivity | reflexivity | discriminate | reflexivity | reflexivity].
Defined.

(** X16. On an ADD_EVENT with a nonempty title the browser appends an
    event of its own making: if the storage and the calendar file hold
    the same collection before, each holds it afterwards with one event
    appended, and the two events have the same title, date, time and
    language; the id and the creation time are the browser's own (they
    are the server's only if the browser's clock readings and random draw
    are). *)
Theorem add_event_browser_follows_server {lc : LowerCase}
    (intent : Intent) (t : string) (w : World) (b : Browser) :
  action intent = "ADD_EVENT" ->
  title (data intent) = Some t ->
  t <> EmptyString ->
  storage_full b = false ->
  App.getEventsFromStorage b = stored w ->
  exists es eb r w',
    executeAction intent w = (Returns r, w') /\
    events r = stored w ++ [es] /\
    stored w' = stored w ++ [es] /\
    App.getEventsFromStorage (App.handleCalendarAction intent b) = stored w ++ [eb] /\
    ev_title eb = ev_title es /\
    ev_date eb = ev_date es /\
    ev_time eb = ev_time es /\
    ev_language eb = ev_language es /\
    (tab_clock b (tab_clock_reads b) = now w ->
     tab_random b (tab_random_draws b) = draw w ->
     tab_clock b (S (tab_clock_reads b)) = clock w (S (clock_reads w)) ->
     eb = es).
Proof.
  intros Hact Ht Hne Hfull Hsync.
  destruct (add_event_creates w intent Hact) as [w' [Hrun [Hst _]]].
  destruct t as [|c t]; [now elim Hne |].
  destruct (App_add_run intent c t b Hact Ht) as [Hitem _].
  rewrite Hfull, Hsync in Hitem.
  eexists. eexists. eexists. exists w'.
  split; [exact Hrun |]. split; [reflexivity |]. split; [exact Hst |].
  split; [unfold App.getEventsFromStorage; rewrite Hitem; reflexivity |].
  cbn [ev_title ev_date ev_time ev_language]. rewrite Ht. repeat split.
  intros -> -> ->. reflexivity.
Qed.

Lemma add_event_browser_follows_server_witness :
  exists es eb r w',
    executeAction (add_intent "Lunch" "2023-11-16" "13:00" "en" "Added.")
      (world_with [standup]) = (Returns r, w') /\
    events r = [standup] ++ [es] /\
    stored w' = [standup] ++ [es] /\
    App.getEventsFromStorage
      (App.handleCalendarAction (add_intent "Lunch" "2023-11-16" "13:00" "en" "Added.")
         (page_with [standup] false)) = [standup] ++ [eb] /\
    ev_title eb = ev_title es /\
    ev_date eb = ev_date es /\
    ev_time eb = ev_time es /\
    ev_language eb = ev_language es.
Proof.
  destruct (add_event_browser_follows_server
              (add_intent "Lunch" "2023-11-16" "13:00" "en" "Added.") "Lunch"
              (world_with [standup]) (page_with [standup] false)
              eq_refl eq_refl ltac:(discriminate) eq_refl eq_refl)
    as [es [eb [r [w' [Hrun [Hev [Hst [Hget [H1 [H2 [H3 [H4 _]]]]]]]]]]]].
  exists es, eb, r, w'. repeat split; assumption.
Defined.

Example add_event_in_browser :
  App.getEventsFromStorage
    (App.handleCalendarAction (add_intent "Lunch" "2023-11-16" "13:00" "en" "Added.")
       (page_with [standup] false)) =
    [standup;
     {| ev_id := "loyw3vg41000"; ev_title := Some "Lunch";
        ev_date := Some "2023-11-16"; ev_time := Some "13:00";
        ev_language := "en"; ev_createdAt := "2023-11-14T22:13:20.501Z" |}].
Proof. reflexivity. Qed.

(** X17. The empty query sets the two copies apart.  If the browser's
    storage and the calendar file hold the same collection, each event
    with a nonempty field among time, title and date, then after a
    DELETE_EVENT with the empty query the calendar file holds no event
    while the browser's storage holds and displays them all. *)
Theorem delete_event_empty_query_diverges {lc : LowerCase}
    (intent : Intent) (w : World) (b : Browser) :
  action intent = "DELETE_EVENT" ->
  query (data intent) = Some EmptyString ->
  App.getEventsFromStorage b = stored w ->
  (forall e, In e (stored w) -> HasNonemptyField e) ->
  exists r w',
    executeAction intent w = (Returns r, w') /\
    events r = [] /\
    stored w' = [] /\
    App.getEventsFromStorage (App.handleCalendarAction intent b) = stored w /\
    displayed (App.handleCalendarAction intent b) = stored w :: displayed b.
Proof.
  intros Hact Hq Hsync Hfields.
  destruct (delete_event_run w intent EmptyString Hact Hq) as [w' [Hrun [Hst _]]].
  pose proof (empty_query_matches_all (stored w) Hfields) as Hnil.
  eexists. exists w'. split; [exact Hrun |]. cbn [events].
  split; [exact Hnil |]. split; [now rewrite Hst |].
  unfold App.handleCalendarAction. rewrite Hact, Hq, Hsync.
  split; [exact Hsync | reflexivity].
Qed.

Lemma delete_event_empty_query_diverges_witness :
  exists r w',
    executeAction (delete_intent "" "en" "ok") (world_with [standup; lunch])
      = (Returns r, w') /\
    events r = [] /\
    stored w' = [] /\
    App.getEventsFromStorage
      (App.handleCalendarAction (delete_intent "" "en" "ok")
         (page_with [standup; lunch] false)) = [standup; lunch] /\
    displayed
      (App.handleCalendarAction (delete_intent "" "en" "ok")
         (page_with [standup; lunch] false)) = [[standup; lunch]].
Proof.
  apply (delete_event_empty_query_diverges (delete_intent "" "en" "ok")
           (world_with [standup; lunch]) (page_with [standup; lunch] false));
    try reflexivity.
  intros e [<- | [<- | []]]; left; eexists; (split; [reflexivity | discriminate]).
Defined.

(** X18. [deleteEventFromStorage] keeps exactly the stored events whose id
    differs from the given one, so it removes every event that bears the
    id.  With room in the storage the events kept are what the storage
    holds afterwards, and deleting the same id again changes nothing; with
    the storage full the page is as before. *)
Theorem deleteEventFromStorage_removes_id (eventId : string) (b : Browser) :
  let kept := fst (App.deleteEventFromStorage eventId b) in
  let b' := snd (App.deleteEventFromStorage eventId b) in
  (forall e, In e kept <->
             In e (App.getEventsFromStorage b) /\ ev_id e <> eventId) /\
  (storage_full b = false ->
   App.getEventsFromStorage b' = kept /\
   App.deleteEventFromStorage eventId b' = (kept, b')) /\
  (storage_full b = true -> b' = b).
Proof.
  cbn [App.deleteEventFromStorage fst snd]. split; [| split].
  - intros e. rewrite filter_In, negb_true_iff, String.eqb_neq. reflexivity.
  - intros Hfull. split; [apply App_save_then_get, Hfull |].
    unfold App.deleteEventFromStorage.
    rewrite (App_save_then_get _ b Hfull), filter_idempotent.
    f_equal. unfold App.saveEventsToStorage. rewrite Hfull. reflexivity.
  - intros Hfull. apply App_save_when_full, Hfull.
Qed.

Lemma deleteEventFromStorage_removes_id_witness :
  App.getEventsFromStorage
    (snd (App.deleteEventFromStorage "loyw3v28k2x9" (page_with [standup; lunch] false)))
    = [lunch] /\
  snd (App.deleteEventFromStorage "loyw3v28k2x9" (page_with [standup; lunch] true))
    = page_with [standup; lunch] true.
Proof.
  split.
  - apply (proj1 (proj1 (proj2 (deleteEventFromStorage_removes_id "loyw3v28k2x9"
                                  (page_with [standup; lunch] false))) eq_refl)).
  - apply (proj2 (proj2 (deleteEventFromStorage_removes_id "loyw3v28k2x9"
                           (page_with [standup; lunch] true))) eq_refl).
Defined.

(** X19. When the storage is full, an ADD_EVENT with a nonempty title
    displays the collection with the new event but does not store it: the
    storage is as before, and loading the events again displays the
    collection without the new event. *)
Theorem add_event_when_storage_full {lc : LowerCase} (intent : Intent) (t : string) (b : Browser) :
  action intent = "ADD_EVENT" ->
  title (data intent) = Some t ->
  t <> EmptyString ->
  storage_full b = true ->
  exists e,
    ev_title e = Some t /\
    displayed (App.handleCalendarAction intent b)
      = (App.getEventsFromStorage b ++ [e]) :: displayed b /\
    storage_item (App.handleCalendarAction intent b) = storage_item b /\
    displayed (App.loadEvents (App.handleCalendarAction intent b))
      = App.getEventsFromStorage b
          :: (App.getEventsFromStorage b ++ [e]) :: displayed b.
Proof.
  intros Hact Ht Hne Hfull.
  destruct t as [|c t]; [now elim Hne |].
  destruct (App_add_run intent c t b Hact Ht) as [Hitem Hshown].
  rewrite Hfull in Hitem.
  eexists. split; [| split; [exact Hshown | split; [exact Hitem |]]].
  - reflexivity.
  - unfold App.loadEvents. cbn [App.displayEvents displayed].
    rewrite Hshown. unfold App.getEventsFromStorage. rewrite Hitem. reflexivity.
Qed.

Lemma add_event_when_storage_full_witness :
  exists e,
    ev_title e = Some "Lunch" /\
    displayed
      (App.handleCalendarAction (add_intent "Lunch" "2023-11-16" "13:00" "en" "Added.")
         (page_with [standup] true)) = ([standup] ++ [e]) :: [] /\
    storage_item
      (App.handleCalendarAction (add_intent "Lunch" "2023-11-16" "13:00" "en" "Added.")
         (page_with [standup] true)) = Some (ArrayText [standup]) /\
    displayed
      (App.loadEvents
         (App.handleCalendarAction (add_intent "Lunch" "2023-11-16" "13:00" "en" "Added.")
            (page_with [standup] true))) = [standup] :: ([standup] ++ [e]) :: [].
Proof.
  apply (add_event_when_storage_full
           (add_intent "Lunch" "2023-11-16" "13:00" "en" "Added.") "Lunch"
           (page_with [standup] true));
    [reflexivity | reflexivity | discriminate | reflexivity].
Defined.

(* ===================================================================== *)
(** ** Ids and what an id tells *)
(* ===================================================================== *)

Lemma substring_prefix (a b : string) :
  substring 0 (String.length a) (a ++ b) = a.
Proof.
  induction a as [|c a IH]; simpl.
  - destruct b; reflexivity.
  - now rewrite IH.
Qed.

Lemma map_digit_value_digit36 (l : list N) :
  Forall (fun d => (d < 36)%N) l -> map digit_value (map digit36 l) = l.
Proof.
  induction 1 as [|d l Hd _ IH]; simpl; [reflexivity |].
  now rewrite digit_value_digit36, IH.
Qed.

Lemma decode36_toString36 (n : N) : decode36 (toString36 n) = n.
Proof.
  unfold decode36, toString36.
  rewrite list_ascii_of_string_of_list_ascii, map_digit_value_digit36
    by apply Forall_rev, digits36_bound.
  rewrite rev_involutive. apply value36_digits36, enough_fuel.
Qed.

(** X20. An id tells when it was made.  For a clock reading of eight
    base-36 digits (1972-06-25 to 2059-05-25), the first eight characters
    of the id [generateId] returns decode, in base 36, to the clock
    reading, and the id is those eight characters followed by the random
    draw. *)
Theorem generateId_carries_clock_reading (w : World) :
  (78364164096 <= now w < 2821109907456)%N ->
  exists id w',
    generateId w = (Returns id, w') /\
    decode36 (substring 0 8 id) = now w /\
    id = (substring 0 8 id ++ draw w)%string.
Proof.
  intros Hrange. eexists. eexists. split; [reflexivity |].
  rewrite <- (toString36_length_8 (now w) Hrange), substring_prefix.
  split; [apply decode36_toString36 | reflexivity].
Qed.

Lemma generateId_carries_clock_reading_witness :
  exists id w',
    generateId (world_with []) = (Returns id, w') /\
    decode36 (substring 0 8 id) = 1700000000000%N /\
    id = (substring 0 8 id ++ "1000")%string.
Proof.
  apply (generateId_carries_clock_reading (world_with [])).
  split; [discriminate | reflexivity].
Defined.

(* ===================================================================== *)
(** ** Events that no query reaches, and silence *)
(* ===================================================================== *)

(** X21. An event whose time, title and date are all missing or empty
    (the server adds such an event when the intent carries none of them)
    is kept by every DELETE_EVENT, whatever the query. *)
Theorem blank_event_survives_delete {lc : LowerCase}
    (w : World) (intent : Intent) (q : string) (e : Event) :
  action intent = "DELETE_EVENT" ->
  query (data intent) = Some q ->
  blank (ev_time e) -> blank (ev_title e) -> blank (ev_date e) ->
  In e (stored w) ->
  exists r w',
    executeAction intent w = (Returns r, w') /\
    In e (events r) /\
    In e (stored w').
Proof.
  intros Hact Hq Htime Htitle Hdate Hin.
  destruct (delete_event_run w intent q Hact Hq) as [w' [Hrun [Hst _]]].
  assert (Hkept : In e (filter (fun event => negb (matches (toLowerCase q) event))
                          (stored w))).
  { apply kept_In. split; [exact Hin |].
    unfold Matches, FieldHas.
    intros [[s [Hs [Hne _]]] | [[s [Hs [Hne _]]] | [s [Hs [Hne _]]]]].
    - destruct Htime as [H | H]; rewrite H in Hs; [discriminate | now injection Hs as <-].
    - destruct Htitle as [H | H]; rewrite H in Hs; [discriminate | now injection Hs as <-].
    - destruct Hdate as [H | H]; rewrite H in Hs; [discriminate | now injection Hs as <-]. }
  eexists. exists w'. split; [exact Hrun |]. cbn [events].
  split; [exact Hkept | now rewrite Hst].
Qed.

Lemma blank_event_survives_delete_witness :
  let ghost :=
    {| ev_id := "loyw3v281000"; ev_title := None; ev_date := None;
       ev_time := Some EmptyString; ev_language := "en";
       ev_createdAt := "2023-11-14T22:13:20.001Z" |} in
  exists r w',
    executeAction (delete_intent "" "en" "ok") (world_with [standup; ghost])
      = (Returns r, w') /\
    In ghost (events r) /\
    In ghost (stored w').
Proof.
  intros ghost.
  apply (blank_event_survives_delete (world_with [standup; ghost])
           (delete_intent "" "en" "ok") "" ghost);
    try reflexivity.
  - right. reflexivity.
  - left. reflexivity.
  - left. reflexivity.
  - right. left. reflexivity.
Defined.

(** Silence is not a failure of the transcription stage.  When neither
    attempt has an alternative to offer and at most one reports an error,
    the stage returns the empty transcript with the tag [en]. *)
Lemma transcribe_nothing_heard (en hi : Attempt) :
  error en = None \/ error hi = None ->
  first_alternative (result en) = None ->
  first_alternative (result hi) = None ->
  transcribe en hi =
    Returns {| transcribedText := EmptyString; detectedLanguage := "en" |}.
Proof.
  intros Herr Hen Hhi.
  rewrite (transcribe_compares en hi Herr). cbv zeta.
  rewrite Hen, Hhi. reflexivity.
Qed.

(* ===================================================================== *)
(** ** Ids over the life of the store *)
(* ===================================================================== *)

Section IdsOverTime.

Lemma NoDup_snoc {A} (l : list A) (x : A) :
  NoDup l -> ~ In x l -> NoDup (l ++ [x]).
Proof.
  induction 1 as [|y l Hy Hl IH]; intros Hx; simpl.
  - constructor; [intros [] | constructor].
  - constructor.
    + intros Hin. apply in_app_or in Hin. destruct Hin as [Hin | [<- | []]].
      * exact (Hy Hin).
      * apply Hx. now left.
    + apply IH. intros Hin. apply Hx. now right.
Qed.

(** Keeping a part of the events keeps their ids distinct. *)
Lemma kept_ids_distinct (keep : Event -> bool) (es : list Event) :
  NoDup (map ev_id es) -> NoDup (map ev_id (filter keep es)).
Proof.
  induction es as [|e es IH]; cbn [filter map]; intros Hd; [exact Hd |].
  apply NoDup_cons_iff in Hd. destruct Hd as [Hfresh Hd].
  destruct (keep e); [| exact (IH Hd)].
  cbn [map]. apply NoDup_cons_iff. split; [| exact (IH Hd)].
  intros Hin. apply Hfresh.
  apply in_map_iff in Hin. destruct Hin as [e' [Hid He']].
  apply in_map_iff. exists e'. split; [exact Hid |].
  exact (proj1 (proj1 (filter_In _ _ _) He')).
Qed.

(** One execution either appends an event whose id begins with the clock
    reading it takes, or keeps a part of the collection and takes no
    reading.  The clock itself is never changed. *)
Lemma executeAction_step {lc : LowerCase} (intent : Intent) (w : World) :
  let w' := snd (executeAction intent w) in
  clock w' = clock w /\
  ((exists e,
      stored w' = stored w ++ [e] /\
      ev_id e = (toString36 (clock w (clock_reads w)) ++ draw w)%string /\
      clock_reads w' = S (S (clock_reads w))) \/
   (clock_reads w' = clock_reads w /\
    exists p, stored w' = filter p (stored w))).
Proof.
  destruct (String.eqb_spec (action intent) "ADD_EVENT") as [Hadd | Hadd].
  - unfold executeAction, bind. rewrite loadEvents_returns, Hadd.
    cbn. split; [reflexivity |]. left. eexists. repeat split.
  - destruct (String.eqb_spec (action intent) "DELETE_EVENT") as [Hdel | Hdel].
    + destruct (query (data intent)) as [q |] eqn:Hq.
      * unfold executeAction, bind. rewrite loadEvents_returns, Hdel.
        cbn. unfold query_toLowerCase. rewrite Hq. cbn.
        split; [reflexivity |]. right. split; [reflexivity |].
        eexists. reflexivity.
      * rewrite (delete_without_query_run w intent Hdel Hq). cbn.
        split; [reflexivity |]. right. split; [reflexivity |].
        exists (fun _ => true). now rewrite filter_true.
    + rewrite (read_only_run w intent Hadd Hdel). cbn.
      split; [reflexivity |]. right. split; [reflexivity |].
      exists (fun _ => true). now rewrite filter_true.
Qed.

Variable tick : nat -> N.
Variable horizon : nat.
Hypothesis tick_advances :
  forall i j, (i < j)%nat -> (j < horizon)%nat -> (tick i < tick j)%N.
Hypothesis tick_eight_digits :
  forall i, (i < horizon)%nat -> (78364164096 <= tick i < 2821109907456)%N.

Lemma step_keeps_ids_distinct {lc : LowerCase} (intent : Intent) (w : World) :
  clock w = tick ->
  (S (S (clock_reads w)) <= horizon)%nat ->
  ids_from_clock w ->
  NoDup (map ev_id (stored w)) ->
  let w' := snd (executeAction intent w) in
  clock w' = tick /\
  (clock_reads w' <= S (S (clock_reads w)))%nat /\
  ids_from_clock w' /\
  NoDup (map ev_id (stored w')).
Proof.
  intros Hclock Hroom Hids Hnd w'.
  destruct (executeAction_step intent w)
    as [Hsame [[e [Hst [Hid Hreads]]] | [Hreads [p Hst]]]];
    fold w' in Hsame, Hst, Hreads.
  - split; [congruence |]. split; [lia |]. split.
    + intros e' He'. rewrite Hst in He'. rewrite Hsame, Hreads.
      apply in_app_or in He'. destruct He' as [He' | [<- | []]].
      * destruct (Hids e' He') as [i [r [Hi Hr]]].
        exists i, r. split; [lia | exact Hr].
      * exists (clock_reads w), (draw w). split; [lia | exact Hid].
    + rewrite Hst, map_app. cbn [map]. apply NoDup_snoc; [exact Hnd |].
      intros Hin. apply in_map_iff in Hin. destruct Hin as [e' [Heq He']].
      destruct (Hids e' He') as [i [r [Hi Hr]]].
      rewrite Hid, Hr, Hclock in Heq.
      apply append_inj in Heq.
      * destruct Heq as [Heq _]. apply toString36_inj in Heq.
        pose proof (tick_advances i (clock_reads w) Hi ltac:(lia)). lia.
      * rewrite !toString36_length_8; [reflexivity | |];
          apply tick_eight_digits; lia.
  - split; [congruence |]. split; [lia |]. split.
    + intros e' He'. rewrite Hst in He'. apply filter_In in He'.
      rewrite Hsame, Hreads. apply Hids, He'.
    + rewrite Hst. now apply kept_ids_distinct.
Qed.

Lemma run_keeps_ids_distinct {lc : LowerCase} (intents : list Intent) (w : World) :
  clock w = tick ->
  (clock_reads w + 2 * length intents <= horizon)%nat ->
  ids_from_clock w ->
  NoDup (map ev_id (stored w)) ->
  NoDup (map ev_id (stored (run intents w))).
Proof.
  revert w. induction intents as [|intent rest IH]; intros w Hclock Hroom Hids Hnd.
  - exact Hnd.
  - cbn [run]. cbn [length] in Hroom.
    destruct (step_keeps_ids_distinct intent w Hclock ltac:(lia) Hids Hnd)
      as [Hc [Hr [Hi Hn]]].
    apply IH; [exact Hc | lia | exact Hi | exact Hn].
Qed.

End IdsOverTime.

(** X22. While the clock advances from one reading to the next, ids are
    not repeated.  Starting from an empty store, if the clock readings
    that the executions can take (two for each intent) are strictly
    increasing and have eight base-36 digits, then after the intents were
    executed one after the other the events in the calendar file have
    pairwise distinct ids, whatever the random draws. *)
Theorem ids_distinct_while_clock_advances {lc : LowerCase} (intents : list Intent) (w : World) :
  let horizon := (clock_reads w + 2 * length intents)%nat in
  (forall i j, (i < j)%nat -> (j < horizon)%nat -> (clock w i < clock w j)%N) ->
  (forall i, (i < horizon)%nat -> (78364164096 <= clock w i < 2821109907456)%N) ->
  stored w = [] ->
  NoDup (map ev_id (stored (run intents w))).
Proof.
  intros horizon Hadvances Hdigits Hempty.
  apply (run_keeps_ids_distinct (clock w) horizon Hadvances Hdigits intents w).
  - reflexivity.
  - apply Nat.le_refl.
  - intros e He. rewrite Hempty in He. destruct He.
  - rewrite Hempty. constructor.
Qed.

Lemma ids_distinct_while_clock_advances_witness :
  NoDup
    (map ev_id
       (stored
          (run [add_intent "Standup" "2023-11-15" "09:30" "en" "Added.";
                delete_intent "lunch" "en" "Cancelled.";
                add_intent "Lunch" "2023-11-16" "13:00" "en" "Added."]
             (world_with [])))).
Proof.
  apply (ids_distinct_while_clock_advances
           [add_intent "Standup" "2023-11-15" "09:30" "en" "Added.";
            delete_intent "lunch" "en" "Cancelled.";
            add_intent "Lunch" "2023-11-16" "13:00" "en" "Added."]
           (world_with [])).
  - intros i j Hij Hj. cbn [world_with clock]. lia.
  - intros i Hi. cbn [world_with clock clock_reads length Nat.add Nat.mul] in *. lia.
  - reflexivity.
Defined.

(* ===================================================================== *)
(** ** A voice request with nothing heard *)
(* ===================================================================== *)

(** X23. Silence is passed on.  When neither recognition attempt has an
    alternative to offer and at most one reports an error, [POST
    /api/voice] does not refuse the request as [POST /api/text] refuses
    the empty text: it selects the empty transcript, builds the prompt
    (four clock readings) and puts the empty utterance to the language
    model; if the model's reply resolves to no intent, the answer is 500
    with that exception. *)
Theorem post_api_voice_silence {lc : LowerCase} (svc : Services) (buffer : string) (w : World) :
  let en := transcribeFile svc buffer "en" in
  let hi := transcribeFile svc buffer "hi" in
  error en = None \/ error hi = None ->
  first_alternative (result en) = None ->
  first_alternative (result hi) = None ->
  post_api_text svc (Some EmptyString) w =
    (Returns {| status := 400; payload := Failure "No text provided" None |}, w) /\
  (exists r w',
     post_api_voice svc (Some buffer) w = (Returns r, w') /\
     status r <> 400 /\
     (4 + clock_reads w <= clock_reads w')%nat) /\
  (forall e,
     reply_intent (messages_create svc (prompt_in svc w) EmptyString) = Throws e ->
     post_api_voice svc (Some buffer) w =
       (Returns {| status := 500;
                   payload := Failure "Failed to process voice input" (Some e) |},
        after_readings 4 w)).
Proof.
  intros en hi Herr Hen Hhi.
  pose proof (transcribe_nothing_heard en hi Herr Hen Hhi) as Hsel.
  split; [reflexivity |].
  assert (Hrun : post_api_voice svc (Some buffer) w =
    match reply_intent (messages_create svc (prompt_in svc w) EmptyString) with
    | Throws e =>
        (Returns {| status := 500;
                    payload := Failure "Failed to process voice input" (Some e) |},
         after_readings 4 w)
    | Returns intent =>
        match executeAction intent (after_readings 4 w) with
        | (Throws e, w1) =>
            (Returns {| status := 500;
                        payload := Failure "Failed to process voice input" (Some e) |},
             w1)
        | (Returns r, w1) =>
            match speech_audio (speak_request svc (message r)) with
            | Throws e =>
                (Returns {| status := 500;
                            payload := Failure "Failed to process voice input"
                                         (Some e) |}, w1)
            | Returns audio =>
                (Returns {| status := 200;
                            payload := Answer EmptyString (message r) audio
                                         (events r) intent |}, w1)
            end
        end
    end).
  { unfold post_api_voice, try_catch, bind, settle.
    fold en hi. rewrite Hsel. cbn [transcribedText].
    rewrite processIntent_run.
    destruct (reply_intent _) as [intent | e]; [| reflexivity].
    destruct (executeAction intent (after_readings 4 w)) as [[r | e] w1];
      [| reflexivity].
    rewrite generateSpeech_run.
    destruct (speech_audio _); reflexivity. }
  split.
  - rewrite Hrun.
    destruct (reply_intent _) as [intent | e].
    + pose proof (executeAction_step intent (after_readings 4 w)) as Hstep.
      destruct (executeAction intent (after_readings 4 w)) as [[r | e] w1];
        cbn [snd] in Hstep;
        assert (Hreads : (4 + clock_reads w <= clock_reads w1)%nat)
          by (destruct Hstep as [_ [[e' [_ [_ Hr]]] | [Hr _]]];
              rewrite Hr; cbn [after_readings clock_reads]; lia).
      * destruct (speech_audio _);
          eexists; exists w1; (split; [reflexivity |]);
          (split; [cbn [status]; discriminate | exact Hreads]).
      * eexists. exists w1. split; [reflexivity |].
        split; [cbn [status]; discriminate | exact Hreads].
    + eexists. eexists. split; [reflexivity |].
      split; [cbn [status]; discriminate | apply Nat.le_refl].
  - intros e He. rewrite Hrun, He. reflexivity.
Qed.

Lemma post_api_voice_silence_witness :
  post_api_voice
    (fixed_services (Returns [NotJson "I did not catch that."])
       {| result := Some {| results := Some {| channels := Some [] |} |};
          error := None |}
       (failed "timeout") (Returns (Some ["abc"])))
    (Some "RIFF") (world_with [standup]) =
    (Returns {| status := 500;
                payload := Failure "Failed to process voice input" (Some SyntaxError) |},
     after_readings 4 (world_with [standup])).
Proof.
  apply (proj2 (proj2 (post_api_voice_silence
                         (fixed_services (Returns [NotJson "I did not catch that."])
                            {| result := Some {| results := Some {| channels := Some [] |} |};
                               error := None |}
                            (failed "timeout") (Returns (Some ["abc"])))
                         "RIFF" (world_with [standup])
                         (or_introl eq_refl) eq_refl eq_refl)) SyntaxError).
  reflexivity.
Defined.

(* ===================================================================== *)
(** ** Speaking a Hindi reply in the browser *)
(* ===================================================================== *)

Lemma startsWith_hi_IN (s : string) :
  startsWith s "hi-IN" = true -> startsWith s "hi" = true.
Proof.
  rewrite !startsWith_spec. intros [suf ->]. now exists ("-IN" ++ suf)%string.
Qed.

Lemma find_head_filter {A} (p q : A -> bool) (l : list A) :
  (forall x, p x = q x) -> find p l = hd_error (filter q l).
Proof.
  intros Hpq. induction l as [|x l IH]; simpl; [reflexivity |].
  rewrite <- Hpq. destruct (p x); [reflexivity | exact IH].
Qed.

(** X24. Where the browser has speech synthesis, [speakWithWebAPI]
    leaves exactly one utterance to speak, the new one: what was waiting is
    cancelled.  Its voice is the first of the voices that
    [initializeVoices] counts as Hindi (the second test, for [hi-IN], adds
    nothing), and the default voice when there is none. *)
Theorem speakWithWebAPI_voice (text language : string) (s : App.Speech) :
  App.supported s = true ->
  exists u,
    App.queue (App.speakWithWebAPI text language s) = [u] /\
    App.utt_text u = text /\
    App.utt_lang u = language /\
    App.utt_voice u = hd_error (App.hindiVoices (App.voices s)) /\
    (App.utt_voice u = None <->
     forall v, In v (App.voices s) -> startsWith (App.voice_lang v) "hi" = false).
Proof.
  intros Hsup. unfold App.speakWithWebAPI. rewrite Hsup.
  cbn [negb App.cancel App.speak App.voices App.queue app].
  eexists. split; [reflexivity |]. cbn [App.utt_text App.utt_lang App.utt_voice].
  split; [reflexivity |]. split; [reflexivity |].
  assert (Hfind :
    find (fun voice => startsWith (App.voice_lang voice) "hi"
                       || startsWith (App.voice_lang voice) "hi-IN") (App.voices s)
    = hd_error (App.hindiVoices (App.voices s))).
  { apply find_head_filter. intros v.
    destruct (startsWith (App.voice_lang v) "hi") eqn:Hhi; [reflexivity |].
    destruct (startsWith (App.voice_lang v) "hi-IN") eqn:Hin; [| reflexivity].
    apply startsWith_hi_IN in Hin. congruence. }
  split; [exact Hfind |]. rewrite Hfind. unfold App.hindiVoices. split.
  - intros Hnone v Hv.
    destruct (startsWith (App.voice_lang v) "hi") eqn:Hhi; [| reflexivity].
    assert (Hin : In v (filter (fun voice => startsWith (App.voice_lang voice) "hi")
                          (App.voices s)))
      by (apply filter_In; now split).
    destruct (filter _ (App.voices s)); [destruct Hin | discriminate Hnone].
  - intros Hall.
    destruct (filter _ (App.voices s)) as [|v l] eqn:Hf; [reflexivity |].
    assert (Hin : In v (filter (fun voice => startsWith (App.voice_lang voice) "hi")
                          (App.voices s)))
      by (rewrite Hf; now left).
    apply filter_In in Hin. destruct Hin as [Hv Hhi].
    rewrite (Hall v Hv) in Hhi. discriminate Hhi.
Qed.

Lemma speakWithWebAPI_voice_witness :
  exists u,
    App.queue
      (App.speakWithWebAPI "namaste" "hi-IN"
         {| App.supported := true;
            App.voices :=
              [{| App.voice_name := "Samantha"; App.voice_lang := "en-US" |};
               {| App.voice_name := "Lekha"; App.voice_lang := "hi-IN" |}];
            App.queue := [] |}) = [u] /\
    App.utt_text u = "namaste" /\
    App.utt_lang u = "hi-IN" /\
    App.utt_voice u = Some {| App.voice_name := "Lekha"; App.voice_lang := "hi-IN" |}.
Proof.
  destruct (speakWithWebAPI_voice "namaste" "hi-IN"
              {| App.supported := true;
                 App.voices :=
                   [{| App.voice_name := "Samantha"; App.voice_lang := "en-US" |};
                    {| App.voice_name := "Lekha"; App.voice_lang := "hi-IN" |}];
                 App.queue := [] |} eq_refl)
    as [u [Hq [Ht [Hl [Hv _]]]]].
  exists u. repeat split; assumption.
Defined.
